(** * Bookworm annotations: highlight resolution and bookmark toggling

    A shallow embedding of [bookworm/annotation/annotation_gui.py]:
    [SelectionRange], [AnnotationMenu.onQuoteSelection] and
    [AnnotationMenu._add_bookmark], over a model of the annotation tables
    they read and write through [Quoter] and [Bookmarker]. *)

From Stdlib Require Import Ascii.
From stdpp Require Import gmap strings list fin_maps sorting.

Local Open Scope Z_scope.

(** ** The reader: which book and page are open *)

Record Reader := {
  current_book : Z;
  current_page : Z
}.

(** ** [SelectionRange] *)

Record SelectionRange := {
  start : Z;
  end_ : Z
}.

(** [SelectionRange.__contains__]: [self.start <= x <= self.end]. *)
Definition contains (r : SelectionRange) (x : Z) : bool :=
  (start r <=? x) && (x <=? end_ r).

(** Two closed ranges overlap when some position lies in both. *)
Definition overlaps (a b : SelectionRange) : bool :=
  (Z.max (start a) (start b) <=? Z.min (end_ a) (end_ b)).

(** ** The highlight table *)

Module Quoter.

(** One row of the highlight table. *)
Record Quote := {
  book_id : Z;
  page_number : Z;
  title : string;
  content : string;
  start_pos : Z;
  end_pos : Z
}.

#[global] Instance Quote_eq_dec : EqDecision Quote.
Proof. solve_decision. Defined.

(** Rows are keyed by their [id]. *)
Abbreviation Store := (gmap positive Quote).

Definition range_of (q : Quote) : SelectionRange :=
  {| start := start_pos q; end_ := end_pos q |}.

Definition on_page (rd : Reader) (q : Quote) : bool :=
  (book_id q =? current_book rd) && (page_number q =? current_page rd).

Definition by_start_pos (a b : positive * Quote) : Prop :=
  start_pos a.2 <= start_pos b.2.

#[global] Instance by_start_pos_dec a b : Decision (by_start_pos a b).
Proof. unfold by_start_pos. apply _. Defined.

(** Modelled from the spec: [Quoter.get_for_page] (the annotator module is
    not part of the sources at hand).  "returns all annotations of kind on
    that page, ordered by position (or start_pos for Highlights);
    side-effect-free." *)
Definition get_for_page (rd : Reader) (st : Store) : list (positive * Quote) :=
  merge_sort by_start_pos
    (filter (λ p, on_page rd p.2 = true) (map_to_list st)).

(** Modelled from the spec: [Quoter.delete].  "removes the annotation ...;
    idempotent no-op if id unknown". *)
Definition delete (i : positive) (st : Store) : Store := base.delete i st.

(** Modelled from the spec: [Quoter.create].  "inserts a new record; fails
    with ValidationError ... if start_pos > end_pos for a Highlight."  The
    new row gets an [id] no stored row has. *)
Definition create (rd : Reader) (title content : string) (start_pos end_pos : Z)
    (st : Store) : option (positive * Store) :=
  if start_pos <=? end_pos then
    let i := fresh (dom st) in
    Some (i, <[i := {| book_id := current_book rd;
                       page_number := current_page rd;
                       title := title; content := content;
                       start_pos := start_pos; end_pos := end_pos |}]> st)
  else None.

(** [q.start_pos = x; q.session.commit()] on the row with id [i]. *)
Definition set_start_pos (i : positive) (q : Quote) (x : Z) (st : Store) : Store :=
  <[i := {| book_id := book_id q; page_number := page_number q;
            title := title q; content := content q;
            start_pos := x; end_pos := end_pos q |}]> st.

(** [q.end_pos = y; q.session.commit()] on the row with id [i]. *)
Definition set_end_pos (i : positive) (q : Quote) (y : Z) (st : Store) : Store :=
  <[i := {| book_id := book_id q; page_number := page_number q;
            title := title q; content := content q;
            start_pos := start_pos q; end_pos := y |}]> st.

End Quoter.

(** ** [AnnotationMenu.onQuoteSelection] *)

(** What the handler ends with; each names one [return] of the source. *)
Inductive Outcome :=
  | NoSelection      (* "No selection" *)
  | Removed          (* "Highlight removed" *)
  | Rejected         (* "Already highlighted", bell *)
  | ExtendedStart    (* "Highlight extended", [q.start_pos = x] *)
  | ExtendedEnd      (* "Highlight extended", [q.end_pos = y] *)
  | Created          (* "Selection highlighted" *)
  | ValidationError. (* raised by [create] *)

#[global] Instance Outcome_eq_dec : EqDecision Outcome.
Proof. solve_decision. Defined.

(** What one pass of the loop body decides for the row [q]. *)
Inductive Verdict := VRemove | VReject | VExtendStart | VExtendEnd | VNext.

#[global] Instance Verdict_eq_dec : EqDecision Verdict.
Proof. solve_decision. Defined.

Definition verdict (q : Quoter.Quote) (x y : Z) : Verdict :=
  let q_range := {| start := Quoter.start_pos q; end_ := Quoter.end_pos q |} in
  if (start q_range =? x) && (end_ q_range =? y) then VRemove
  else if (Quoter.start_pos q <? x) && (Quoter.end_pos q >? y) then VReject
  else if contains q_range x || contains q_range y then
    if negb (contains q_range x) then VExtendStart
    else if negb (contains q_range y) then VExtendEnd
    else VNext
  else VNext.

(** The [for q in quoter.get_for_page()] loop: [None] when it runs to its
    end without returning. *)
Fixpoint scan_quotes (qs : list (positive * Quoter.Quote)) (x y : Z)
    (st : Quoter.Store) : option (Outcome * Quoter.Store) :=
  match qs with
  | [] => None
  | (i, q) :: rest =>
      match verdict q x y with
      | VRemove => Some (Removed, Quoter.delete i st)
      | VReject => Some (Rejected, st)
      | VExtendStart => Some (ExtendedStart, Quoter.set_start_pos i q x st)
      | VExtendEnd => Some (ExtendedEnd, Quoter.set_end_pos i q y st)
      | VNext => scan_quotes rest x y st
      end
  end.

(** [selected_text] and [(x, y)] are what the text control reports as its
    selection. *)
Definition onQuoteSelection (rd : Reader) (selected_text : string) (x y : Z)
    (st : Quoter.Store) : Outcome * Quoter.Store :=
  if decide (selected_text = "") then (NoSelection, st)
  else
    match scan_quotes (Quoter.get_for_page rd st) x y st with
    | Some r => r
    | None =>
        match Quoter.create rd "" selected_text x y st with
        | Some (_, st') => (Created, st')
        | None => (ValidationError, st)
        end
    end.

(** ** The page invariant and the match conditions *)

(** The candidate range of a selection. *)
Definition candidate (x y : Z) : SelectionRange := {| start := x; end_ := y |}.

(** No two highlights of the open page overlap. *)
Definition page_disjoint (rd : Reader) (st : Quoter.Store) : Prop :=
  ∀ i j q r, i ≠ j → st !! i = Some q → st !! j = Some r →
    Quoter.on_page rd q = true → Quoter.on_page rd r = true →
    overlaps (Quoter.range_of q) (Quoter.range_of r) = false.

(** The row [(i, q)] is reached by the scan: every row before it in page
    order lets the loop continue. *)
Definition first_match (qs : list (positive * Quoter.Quote)) (x y : Z)
    (i : positive) (q : Quoter.Quote) : Prop :=
  ∃ pre post, qs = pre ++ (i, q) :: post ∧
    Forall (λ p, verdict p.2 x y = VNext) pre.

(** The candidate shares a position with at most one highlight of the open
    page. *)
Definition at_most_one_overlapped (rd : Reader) (st : Quoter.Store) (x y : Z)
    : Prop :=
  ∀ i j q r, st !! i = Some q → st !! j = Some r →
    Quoter.on_page rd q = true → Quoter.on_page rd r = true →
    overlaps (Quoter.range_of q) (candidate x y) = true →
    overlaps (Quoter.range_of r) (candidate x y) = true →
    i = j.

(** The four relative positions of a candidate the loop body acts on. *)
Definition handled (q : Quoter.Quote) (x y : Z) : Prop :=
  (Quoter.start_pos q = x ∧ Quoter.end_pos q = y) ∨
  (Quoter.start_pos q < x ∧ y < Quoter.end_pos q) ∨
  (Quoter.start_pos q <= x <= Quoter.end_pos q ∧ Quoter.end_pos q < y) ∨
  (x < Quoter.start_pos q ∧ Quoter.start_pos q <= y <= Quoter.end_pos q).

(** Every highlight of the open page the candidate overlaps is met in one of
    those four positions. *)
Definition overlapped_are_handled (rd : Reader) (st : Quoter.Store) (x y : Z)
    : Prop :=
  ∀ i q, st !! i = Some q → Quoter.on_page rd q = true →
    overlaps (Quoter.range_of q) (candidate x y) = true → handled q x y.

(** ** The resolver as the specification words it (section 4.3)

    Kept apart from the embedding above, to be compared with it. *)

Module RangeResolver.

(** The numbered cases, tried in the order 1, 2, 3, 4 on one stored range
    [[s, e]]; [None] when none applies. *)
Definition spec_case (s e x y : Z) : option Outcome :=
  if decide (s = x ∧ e = y) then Some Removed
  else if decide (s < x ∧ e > y) then Some Rejected
  else if decide (s <= x <= e ∧ ¬ (s <= y <= e)) then Some ExtendedEnd
  else if decide (s <= y <= e ∧ ¬ (s <= x <= e)) then Some ExtendedStart
  else None.

(** The first range in the given order for which a case applies decides;
    [Created] when there is none. *)
Fixpoint spec_resolve (ranges : list (positive * Quoter.Quote)) (x y : Z)
    : Outcome * option (positive * Quoter.Quote) :=
  match ranges with
  | [] => (Created, None)
  | (i, q) :: rest =>
      match spec_case (Quoter.start_pos q) (Quoter.end_pos q) x y with
      | Some o => (o, Some (i, q))
      | None => spec_resolve rest x y
      end
  end.

(** The store mutation each outcome is paired with. *)
Definition spec_effect (rd : Reader) (selected_text : string) (x y : Z)
    (st : Quoter.Store) (d : Outcome * option (positive * Quoter.Quote))
    : Quoter.Store :=
  match d with
  | (Removed, Some (i, _)) => Quoter.delete i st
  | (ExtendedEnd, Some (i, q)) => Quoter.set_end_pos i q y st
  | (ExtendedStart, Some (i, q)) => Quoter.set_start_pos i q x st
  | (Created, _) =>
      match Quoter.create rd "" selected_text x y st with
      | Some (_, st') => st'
      | None => st
      end
  | _ => st
  end.

End RangeResolver.

(** ** The bookmark table *)

Module Bookmarker.

(** One row of the bookmark table. *)
Record Bookmark := {
  book_id : Z;
  page_number : Z;
  title : string;
  position : Z
}.

Abbreviation Store := (gmap positive Bookmark).

Definition on_page (rd : Reader) (page : Z) (b : Bookmark) : bool :=
  (book_id b =? current_book rd) && (page_number b =? page).

Definition by_position (a b : positive * Bookmark) : Prop :=
  position a.2 <= position b.2.

#[global] Instance by_position_dec a b : Decision (by_position a b).
Proof. unfold by_position. apply _. Defined.

(** Modelled from the spec: [Bookmarker.get_for_page] (the annotator module
    is not part of the sources at hand).  "returns all annotations of kind
    on that page, ordered by position". *)
Definition get_for_page (rd : Reader) (page : Z) (st : Store)
    : list (positive * Bookmark) :=
  merge_sort by_position
    (filter (λ p, on_page rd page p.2 = true) (map_to_list st)).

(** Modelled from the spec: [Bookmarker.delete].  "removes the annotation
    ...; idempotent no-op if id unknown". *)
Definition delete (i : positive) (st : Store) : Store := base.delete i st.

(** Modelled from the spec: [Bookmarker.create].  "inserts a new record";
    a bookmark needs no content, and the new row gets an [id] no stored
    row has. *)
Definition create (rd : Reader) (title : string) (position : Z) (st : Store)
    : positive * Store :=
  let i := fresh (dom st) in
  (i, <[i := {| book_id := current_book rd;
                page_number := current_page rd;
                title := title; position := position |}]> st).

End Bookmarker.

(** ** [AnnotationMenu._add_bookmark] *)

Inductive BookmarkOutcome :=
  | BookmarkRemoved   (* "Bookmark removed." *)
  | BookmarkAdded.    (* "Bookmark Added" *)

#[global] Instance BookmarkOutcome_eq_dec : EqDecision BookmarkOutcome.
Proof. solve_decision. Defined.

Section AddBookmark.

(** The line number the text control's [PositionToXY] gives a position
    (the third component of its result). *)
Variable PositionToXY : Z → Z.

(** The [for bkm in bookmarker.get_for_page(...)] loop, threading [count]
    and the table. *)
Fixpoint delete_on_line (bkms : list (positive * Bookmarker.Bookmark))
    (current_lino : Z) (count : nat) (st : Bookmarker.Store)
    : nat * Bookmarker.Store :=
  match bkms with
  | [] => (count, st)
  | (i, bkm) :: rest =>
      let lino := PositionToXY (Bookmarker.position bkm) in
      if lino =? current_lino then
        delete_on_line rest current_lino (count + 1)%nat (Bookmarker.delete i st)
      else delete_on_line rest current_lino count st
  end.

Definition _add_bookmark (rd : Reader) (name : string) (insertionPoint : Z)
    (st : Bookmarker.Store) : BookmarkOutcome * Bookmarker.Store :=
  let current_lino := PositionToXY insertionPoint in
  let '(count, st1) :=
    delete_on_line (Bookmarker.get_for_page rd (current_page rd) st)
      current_lino 0%nat st in
  if negb (count =? 0)%nat && bool_decide (name = "") then (BookmarkRemoved, st1)
  else (BookmarkAdded, (Bookmarker.create rd name insertionPoint st1).2).

(** [onAddBookmark]: [self._add_bookmark()]. *)
Definition onAddBookmark (rd : Reader) (insertionPoint : Z)
    (st : Bookmarker.Store) : option BookmarkOutcome * Bookmarker.Store :=
  let '(o, st') := _add_bookmark rd "" insertionPoint st in (Some o, st').

(** [onAddNamedBookmark]: [bookmark_name] is what the dialog returned,
    empty when it was dismissed or left blank. *)
Definition onAddNamedBookmark (rd : Reader) (bookmark_name : string)
    (insertionPoint : Z) (st : Bookmarker.Store)
    : option BookmarkOutcome * Bookmarker.Store :=
  if decide (bookmark_name = "") then (None, st)
  else let '(o, st') := _add_bookmark rd bookmark_name insertionPoint st in
       (Some o, st').

(** The bookmark [b] sits on line [lino] of the open page. *)
Definition on_line (rd : Reader) (lino : Z) (b : Bookmarker.Bookmark) : Prop :=
  Bookmarker.on_page rd (current_page rd) b = true ∧
  PositionToXY (Bookmarker.position b) = lino.

#[global] Instance on_line_dec rd lino b : Decision (on_line rd lino b).
Proof. unfold on_line. apply _. Defined.

(** No line of the open page holds two bookmarks. *)
Definition one_per_line (rd : Reader) (st : Bookmarker.Store) : Prop :=
  ∀ i j b c, st !! i = Some b → st !! j = Some c →
    Bookmarker.on_page rd (current_page rd) b = true →
    Bookmarker.on_page rd (current_page rd) c = true →
    PositionToXY (Bookmarker.position b) = PositionToXY (Bookmarker.position c) →
    i = j.

(** The table with every bookmark on line [lino] of the open page taken
    out. *)
Definition without_line (rd : Reader) (lino : Z) (st : Bookmarker.Store)
    : Bookmarker.Store :=
  filter (λ p, ¬ on_line rd lino p.2) st.

End AddBookmark.

(** ** Text typed into a dialog *)

Section TextInput.

(** Python's test for a whitespace character, the one [str.strip()] and
    [str.split()] share. *)
Variable isspace : ascii → bool.

Fixpoint all_space (s : string) : bool :=
  match s with
  | EmptyString => true
  | String c s' => isspace c && all_space s'
  end.

Fixpoint no_space (s : string) : bool :=
  match s with
  | EmptyString => true
  | String c s' => negb (isspace c) && no_space s'
  end.

Definition first_char (s : string) : option ascii :=
  match s with
  | EmptyString => None
  | String c _ => Some c
  end.

Fixpoint last_char (s : string) : option ascii :=
  match s with
  | EmptyString => None
  | String c s' =>
      match s' with
      | EmptyString => Some c
      | String _ _ => last_char s'
      end
  end.

(** [str.lstrip()]: drop the leading whitespace. *)
Fixpoint lstrip (s : string) : string :=
  match s with
  | EmptyString => EmptyString
  | String c s' => if isspace c then lstrip s' else s
  end.

(** [str.rstrip()]: drop the trailing whitespace. *)
Fixpoint rstrip (s : string) : string :=
  match s with
  | EmptyString => EmptyString
  | String c s' =>
      match rstrip s' with
      | EmptyString => if isspace c then EmptyString else String c EmptyString
      | String c' r => String c (String c' r)
      end
  end.

(** [str.strip()]: drop the leading and the trailing whitespace. *)
Definition strip (s : string) : string := rstrip (lstrip s).

(** [str.split()] without a separator: the maximal runs of characters that
    are not whitespace; [word] is the run being read. *)
Fixpoint split_from (word : string) (s : string) : list string :=
  match s with
  | EmptyString => if decide (word = "") then [] else [word]
  | String c s' =>
      if isspace c then
        if decide (word = "") then split_from "" s'
        else word :: split_from "" s'
      else split_from (word +:+ String c EmptyString) s'
  end.

Definition split (s : string) : list string := split_from "" s.

(** The characters of [s] that are not whitespace, in order. *)
Fixpoint without_space (s : string) : string :=
  match s with
  | EmptyString => EmptyString
  | String c s' => if isspace c then without_space s' else String c (without_space s')
  end.

(** [AnnotationMenu.get_text_from_user]: [ok] says whether [dlg.ShowModal()]
    returned [wx.ID_OK], [entered] is [dlg.GetValue()].  [None] is Python's
    [None], returned both by [wx.Bell()] and by falling off the end. *)
Definition get_text_from_user (ok : bool) (entered : string) : option string :=
  if ok then
    let value := strip entered in
    if decide (value = "") then None else Some value
  else None.

(** Python's truth value of what [get_text_from_user] returns. *)
Definition truthy (text : option string) : bool :=
  match text with
  | Some (String _ _) => true
  | _ => false
  end.

(** [for tag in tags_text.split(): ... .tags.append(tag.strip())]: what is
    appended, in order. *)
Definition tags_to_append (tags_text : string) : list string :=
  strip <$> split tags_text.

End TextInput.

(** ** The comment table *)

Module NoteTaker.

(** One row of the comment table, with the tags attached to it. *)
Record Note := {
  book_id : Z;
  page_number : Z;
  title : string;
  content : string;
  position : Z;
  tags : list string
}.

Abbreviation Store := (gmap positive Note).

(** Modelled from the spec: [NoteTaker.create] (the annotator module is not
    part of the sources at hand).  "requires non-empty content; fails with
    ValidationError otherwise."  The new row has no tags and gets an [id] no
    stored row has. *)
Definition create (rd : Reader) (title content : string) (position : Z)
    (st : Store) : option (positive * Store) :=
  if decide (content = "") then None
  else
    let i := fresh (dom st) in
    Some (i, <[i := {| book_id := current_book rd;
                       page_number := current_page rd;
                       title := title; content := content;
                       position := position; tags := [] |}]> st).

(** [note.tags.append(tag)] for each of [new_tags] in turn, then
    [session.commit()], on the row with id [i]. *)
Definition append_tags (i : positive) (new_tags : list string) (st : Store)
    : Store :=
  match st !! i with
  | Some n =>
      <[i := {| book_id := book_id n; page_number := page_number n;
                title := title n; content := content n;
                position := position n; tags := tags n ++ new_tags |}]> st
  | None => st
  end.

End NoteTaker.

(** ** [AnnotationMenu.onAddNote] *)

Inductive NoteOutcome :=
  | NoComment         (* the early [return] *)
  | CommentAdded
  | CommentInvalid.   (* ValidationError raised by [create] *)

#[global] Instance NoteOutcome_eq_dec : EqDecision NoteOutcome.
Proof. solve_decision. Defined.

Section AddNote.

Variable isspace : ascii → bool.

(** [_with_tags] is the state of the Shift key; each dialog is given by
    whether it was confirmed and the text it held.  The second dialog is
    only shown when [_with_tags] holds. *)
Definition onAddNote (rd : Reader) (_with_tags : bool) (insertionPoint : Z)
    (comment_dialog tags_dialog : bool * string) (st : NoteTaker.Store)
    : NoteOutcome * NoteTaker.Store :=
  let comment_text :=
    get_text_from_user isspace comment_dialog.1 comment_dialog.2 in
  if negb (truthy comment_text) then (NoComment, st)
  else
    match NoteTaker.create rd "" (default "" comment_text) insertionPoint st with
    | None => (CommentInvalid, st)
    | Some (i, st') =>
        if _with_tags then
          let tags_text :=
            get_text_from_user isspace tags_dialog.1 tags_dialog.2 in
          if truthy tags_text then
            (CommentAdded,
             NoteTaker.append_tags i
               (tags_to_append isspace (default "" tags_text)) st')
          else (CommentAdded, st')
        else (CommentAdded, st')
    end.

(** [onAddNamedBookmark] from the dialog on: [bookmark_name] is what
    [get_text_from_user] returns. *)
Definition onAddNamedBookmark_dialog (PositionToXY : Z → Z) (rd : Reader)
    (name_dialog : bool * string) (insertionPoint : Z)
    (st : Bookmarker.Store) : option BookmarkOutcome * Bookmarker.Store :=
  let bookmark_name :=
    get_text_from_user isspace name_dialog.1 name_dialog.2 in
  onAddNamedBookmark PositionToXY rd (default "" bookmark_name)
    insertionPoint st.

End AddNote.

(** ** [PageRangeControl.get_range] (gui/components.py) *)

Module PageRangeControl.

Record Pager := { first : Z; last : Z }.

Record Section_ := { title : string; pager : Pager }.

Inductive PyError := UnboundLocalError | IndexError.

(** [wx.NOT_FOUND]. *)
Definition NOT_FOUND : Z := -1.

(** Python's [l[i]]: a negative index counts from the end. *)
Definition getitem {A} (l : list A) (i : Z) : option A :=
  let n := Z.of_nat (length l) in
  if (0 <=? i) && (i <? n) then l !! Z.to_nat i
  else if (- n <=? i) && (i <? 0) then l !! Z.to_nat (i + n)
  else None.

(** The widgets' values are the arguments: the "Specific section" radio
    button, the selection of the section list, the table of contents it
    lists, and the two page spin controls. *)
Definition get_range (hasSection : bool) (sectionChoice : Z)
    (toc_tree : list Section_) (fromPage toPage : Z) : PyError + Z * Z :=
  if hasSection then
    let selected_section := sectionChoice in
    if negb (selected_section =? NOT_FOUND) then
      match getitem toc_tree selected_section with
      | Some sect => inr (first (pager sect), last (pager sect))
      | None => inl IndexError
      end
    else inl UnboundLocalError
  else inr (fromPage - 1, toPage - 1).

End PageRangeControl.

(** ** The list of paths [clean] removes (tasks.py) *)

Section Clean.

(** [glob.glob]. *)
Variable glob : string → list string.

(** ["*" in entry]. *)
Fixpoint has_star (entry : string) : bool :=
  match entry with
  | EmptyString => false
  | String c s => bool_decide (c = "*"%char) || has_star s
  end.

(** [list.remove(x)]: drop the first item equal to [x]; [None] is the
    [ValueError] raised when there is none. *)
Fixpoint list_remove (x : string) (l : list string) : option (list string) :=
  match l with
  | [] => None
  | a :: l' =>
      if decide (a = x) then Some l'
      else cons a <$> list_remove x l'
  end.

(** [for entry, glbs in glob_patterns: folders_to_clean.remove(entry);
    folders_to_clean.extend(glbs)]. *)
Fixpoint replace_patterns (glob_patterns : list (string * list string))
    (folders_to_clean : list string) : option (list string) :=
  match glob_patterns with
  | [] => Some folders_to_clean
  | (entry, glbs) :: rest =>
      match list_remove entry folders_to_clean with
      | Some l => replace_patterns rest (l ++ glbs)
      | None => None
      end
  end.

(** The paths [clean] goes on to remove: [everytime] and [assets_folders]
    are the two lists of the configuration, [assets] and [siteconfig] the
    flags of the task. *)
Definition folders_to_clean (everytime assets_folders : list string)
    (assets siteconfig : bool) : option (list string) :=
  let l0 := everytime in
  let l1 := if assets then l0 ++ assets_folders else l0 in
  let l2 := if siteconfig then l1 ++ [".appdata"] else l1 in
  let glob_patterns :=
    (λ entry, (entry, glob entry)) <$> filter (λ entry, has_star entry = true) l2 in
  replace_patterns glob_patterns l2.

End Clean.

(** Every stored highlight has its start at or before its end. *)
Definition well_formed (st : Quoter.Store) : Prop :=
  ∀ i q, st !! i = Some q → Quoter.start_pos q <= Quoter.end_pos q.

(** ** Example pages

    Each page below is what the handler itself leaves behind, starting from
    an empty table. *)

Definition rd0 : Reader := {| current_book := 1; current_page := 0 |}.

Definition highlight (rd : Reader) (text : string) (s e : Z) : Quoter.Quote :=
  {| Quoter.book_id := current_book rd; Quoter.page_number := current_page rd;
     Quoter.title := ""; Quoter.content := text;
     Quoter.start_pos := s; Quoter.end_pos := e |}.

Definition select (rd : Reader) (text : string) (x y : Z) (st : Quoter.Store)
    : Quoter.Store :=
  (onQuoteSelection rd text x y st).2.

(** Rows 1 = [[0, 7]] and 2 = [[10, 20]]. *)
Definition page_two_apart : Quoter.Store :=
  select rd0 "b" 10 20 (select rd0 "a" 0 7 ∅).

(** Rows 1 = [[0, 15]] and 2 = [[10, 20]]: the selection [[5, 15]] widened
    row 1 of [page_two_apart]. *)
Definition page_widened : Quoter.Store :=
  select rd0 "c" 5 15 page_two_apart.

(** Rows 1 = [[0, 30]] and 2 = [[10, 20]]: the selection [[3, 30]] widened
    row 1 = [[0, 5]] over row 2. *)
Definition page_enclosed : Quoter.Store :=
  select rd0 "c" 3 30 (select rd0 "b" 10 20 (select rd0 "a" 0 5 ∅)).

(** Rows 1 = [[0, 20]] and 2 = [[0, 20]]: on [page_widened] the selection
    [[15, 20]] widened row 1 to [[0, 20]], then the selection [[0, 15]]
    widened row 2 to [[0, 20]]. *)
Definition page_twice : Quoter.Store :=
  select rd0 "e" 0 15 (select rd0 "d" 15 20 page_widened).

(** One row, 1 = [[10, 20]]. *)
Definition page_single : Quoter.Store := select rd0 "a" 10 20 ∅.

(** A bookmark made on the open page. *)
Definition bookmark (rd : Reader) (name : string) (pos : Z) : Bookmarker.Bookmark :=
  {| Bookmarker.book_id := current_book rd;
     Bookmarker.page_number := current_page rd;
     Bookmarker.title := name; Bookmarker.position := pos |}.

(** A text control showing ten characters a line. *)
Definition ten_per_line (pos : Z) : Z := pos `div` 10.

(** Python's whitespace among the ASCII characters: tab to carriage return,
    the four separators 28 to 31, and the blank. *)
Definition ascii_isspace (c : ascii) : bool :=
  let n := nat_of_ascii c in
  ((9 <=? n) && (n <=? 13) || (28 <=? n) && (n <=? 32))%nat.

(** * Properties *)

(** ** Arithmetic of ranges *)

Ltac zbool :=
  repeat match goal with
  | |- context [?a <=? ?b] => destruct (Z.leb_spec a b)
  | |- context [?a <? ?b] => destruct (Z.ltb_spec a b)
  | |- context [?a >? ?b] => rewrite (Z.gtb_ltb a b)
  | |- context [?a =? ?b] => destruct (Z.eqb_spec a b)
  | H : context [?a <=? ?b] |- _ => destruct (Z.leb_spec a b)
  | H : context [?a <? ?b] |- _ => destruct (Z.ltb_spec a b)
  | H : context [?a >? ?b] |- _ => rewrite (Z.gtb_ltb a b) in H
  | H : context [?a =? ?b] |- _ => destruct (Z.eqb_spec a b)
  end; simpl in *;
  try solve [done | lia | intuition (try discriminate; try congruence; lia)].

Lemma contains_spec r x : contains r x = true ↔ start r <= x <= end_ r.
Proof. unfold contains. zbool. Qed.

(** [overlaps] is exactly "some position lies in both ranges". *)
Lemma overlaps_spec a b :
  overlaps a b = true ↔ ∃ p, contains a p = true ∧ contains b p = true.
Proof.
  unfold overlaps. split.
  - intros H. exists (Z.max (start a) (start b)).
    rewrite !contains_spec. apply Z.leb_le in H. lia.
  - intros (p & Ha & Hb). rewrite contains_spec in Ha, Hb.
    apply Z.leb_le. lia.
Qed.

Lemma overlaps_sym a b : overlaps a b = overlaps b a.
Proof. unfold overlaps. by rewrite Z.max_comm, Z.min_comm. Qed.

(** ** What each verdict means *)

Lemma verdict_VRemove q x y :
  verdict q x y = VRemove ↔ Quoter.start_pos q = x ∧ Quoter.end_pos q = y.
Proof. unfold verdict, contains. simpl. zbool. Qed.

Lemma verdict_VReject q x y :
  verdict q x y = VReject ↔
  ¬ (Quoter.start_pos q = x ∧ Quoter.end_pos q = y) ∧
  Quoter.start_pos q < x ∧ y < Quoter.end_pos q.
Proof. unfold verdict, contains. simpl. zbool. Qed.

Lemma verdict_VExtendEnd q x y :
  verdict q x y = VExtendEnd ↔
  ¬ (Quoter.start_pos q < x ∧ y < Quoter.end_pos q) ∧
  Quoter.start_pos q <= x <= Quoter.end_pos q ∧
  ¬ (Quoter.start_pos q <= y <= Quoter.end_pos q).
Proof. unfold verdict, contains. simpl. zbool. Qed.

Lemma verdict_VExtendStart q x y :
  verdict q x y = VExtendStart ↔
  ¬ (Quoter.start_pos q < x ∧ y < Quoter.end_pos q) ∧
  Quoter.start_pos q <= y <= Quoter.end_pos q ∧
  ¬ (Quoter.start_pos q <= x <= Quoter.end_pos q).
Proof. unfold verdict, contains. simpl. zbool. Qed.

(** A range the loop acts on shares a position with the candidate. *)
Lemma verdict_overlaps q x y :
  x <= y → verdict q x y ≠ VNext →
  overlaps (Quoter.range_of q) (candidate x y) = true.
Proof.
  intros Hxy. unfold verdict, overlaps, contains, Quoter.range_of. simpl.
  zbool.
Qed.

Lemma handled_verdict q x y : x <= y → handled q x y → verdict q x y ≠ VNext.
Proof.
  intros Hxy. unfold handled, verdict, contains. simpl. zbool.
Qed.

(** ** The page listing *)

Lemma elem_of_get_for_page rd (st : Quoter.Store) i q :
  (i, q) ∈ Quoter.get_for_page rd st ↔
  st !! i = Some q ∧ Quoter.on_page rd q = true.
Proof.
  unfold Quoter.get_for_page.
  rewrite merge_sort_Permutation, list_elem_of_filter, elem_of_map_to_list.
  simpl. tauto.
Qed.

Lemma first_match_elem_of qs x y i q : first_match qs x y i q → (i, q) ∈ qs.
Proof.
  intros (pre & post & -> & _). apply elem_of_app. right. apply elem_of_cons. by left.
Qed.

Lemma first_match_stored rd (st : Quoter.Store) x y i q :
  first_match (Quoter.get_for_page rd st) x y i q →
  st !! i = Some q ∧ Quoter.on_page rd q = true.
Proof. intros H. by apply first_match_elem_of, elem_of_get_for_page in H. Qed.

(** ** The scan *)

(** Rows that let the loop continue are skipped. *)
Lemma scan_quotes_skip pre qs x y st :
  Forall (λ p, verdict p.2 x y = VNext) pre →
  scan_quotes (pre ++ qs) x y st = scan_quotes qs x y st.
Proof.
  induction 1 as [|[j r] pre Hr _ IH]; [done|].
  simpl in *. by rewrite Hr.
Qed.

Lemma scan_quotes_None qs x y st :
  scan_quotes qs x y st = None ↔ Forall (λ p, verdict p.2 x y = VNext) qs.
Proof.
  induction qs as [|[j r] qs IH]; simpl.
  - split; [constructor | done].
  - rewrite Forall_cons. simpl.
    destruct (verdict r x y); rewrite ?IH; intuition congruence.
Qed.

(** A scan that returns does so at its first match, with that row's effect. *)
Lemma scan_quotes_Some qs x y st res :
  scan_quotes qs x y st = Some res →
  ∃ i q, first_match qs x y i q ∧ verdict q x y ≠ VNext ∧
         scan_quotes [(i, q)] x y st = Some res.
Proof.
  induction qs as [|[j r] qs IH]; simpl; [done|].
  destruct (verdict r x y) eqn:Hv.
  1-4: intros Hres; exists j, r; split_and!;
       [by exists [], qs | congruence | simpl; by rewrite Hv].
  intros Hres. destruct (IH Hres) as (i & q & (pre & post & -> & Hpre) & Hq & Hs).
  exists i, q. split_and!; [|done..].
  exists ((j, r) :: pre), post. split; [done|]. by constructor.
Qed.

Lemma scan_quotes_first qs x y st i q :
  first_match qs x y i q → verdict q x y ≠ VNext →
  scan_quotes qs x y st = scan_quotes [(i, q)] x y st.
Proof.
  intros (pre & post & -> & Hpre) Hq.
  rewrite scan_quotes_skip by done. simpl. by destruct (verdict q x y).
Qed.

Lemma onQuoteSelection_first rd text x y st i q :
  text ≠ "" → first_match (Quoter.get_for_page rd st) x y i q →
  verdict q x y ≠ VNext →
  Some (onQuoteSelection rd text x y st) = scan_quotes [(i, q)] x y st.
Proof.
  intros Ht Hfm Hq. unfold onQuoteSelection.
  rewrite decide_False by done.
  rewrite (scan_quotes_first _ _ _ _ _ _ Hfm Hq).
  simpl. by destruct (verdict q x y).
Qed.

(** ** The example pages, row by row *)

Lemma page_single_rows : page_single = {[ 1%positive := highlight rd0 "a" 10 20 ]}.
Proof. vm_compute. reflexivity. Qed.

Lemma page_two_apart_rows :
  page_two_apart =
  <[ 2%positive := highlight rd0 "b" 10 20 ]> {[ 1%positive := highlight rd0 "a" 0 7 ]}.
Proof. vm_compute. reflexivity. Qed.

Lemma page_widened_rows :
  page_widened =
  <[ 2%positive := highlight rd0 "b" 10 20 ]> {[ 1%positive := highlight rd0 "a" 0 15 ]}.
Proof. vm_compute. reflexivity. Qed.

Lemma page_enclosed_rows :
  page_enclosed =
  <[ 2%positive := highlight rd0 "b" 10 20 ]> {[ 1%positive := highlight rd0 "a" 0 30 ]}.
Proof. vm_compute. reflexivity. Qed.

(** ** Exact match: the highlight is removed *)

(** C2, as stated, fails: on [page_twice] two rows carry the range
    [[0, 20]]; the candidate [[0, 20]] equals the first of them in page
    order, which is removed, and the other row, with that same range, is
    still stored.  (Whichever of the two the listing puts first, the other
    one stays.) *)
Lemma equal_range_stored_twice :
  page_twice =
    <[ 2%positive := highlight rd0 "b" 0 20 ]>
      {[ 1%positive := highlight rd0 "a" 0 20 ]} ∧
  first_match (Quoter.get_for_page rd0 page_twice) 0 20
    2%positive (highlight rd0 "b" 0 20) ∧
  Quoter.start_pos (highlight rd0 "b" 0 20) = 0 ∧
  Quoter.end_pos (highlight rd0 "b" 0 20) = 20 ∧
  onQuoteSelection rd0 "f" 0 20 page_twice =
    (Removed, {[ 1%positive := highlight rd0 "a" 0 20 ]}) ∧
  (onQuoteSelection rd0 "f" 0 20 page_twice).2 !! 1%positive
    = Some (highlight rd0 "a" 0 20) ∧
  Quoter.on_page rd0 (highlight rd0 "a" 0 20) = true ∧
  Quoter.range_of (highlight rd0 "a" 0 20) = candidate 0 20.
Proof.
  split_and!; try (vm_compute; reflexivity).
  exists [], [(1%positive, highlight rd0 "a" 0 20)].
  split; [vm_compute; reflexivity | constructor].
Qed.

(** C2 (amended): when the candidate [[x, y]] equals a stored range of the
    page and that row is the first match in page order, the handler answers
    [Removed]; the row is deleted, every other row is as before and no row
    is added.  Afterwards the page holds no highlight with the range
    [[x, y]] if and only if no other highlight of the page had that range
    before. *)
Theorem exact_match_removed rd (st : Quoter.Store) text x y i q :
  text ≠ "" →
  first_match (Quoter.get_for_page rd st) x y i q →
  Quoter.start_pos q = x → Quoter.end_pos q = y →
  let res := onQuoteSelection rd text x y st in
  st !! i = Some q ∧
  res.1 = Removed ∧
  res.2 !! i = None ∧
  (∀ j, j ≠ i → res.2 !! j = st !! j) ∧
  dom res.2 = dom st ∖ {[ i ]} ∧
  ((∀ j r, res.2 !! j = Some r → Quoter.on_page rd r = true →
           Quoter.range_of r ≠ candidate x y) ↔
   (∀ j r, j ≠ i → st !! j = Some r → Quoter.on_page rd r = true →
           Quoter.range_of r ≠ candidate x y)).
Proof.
  intros Ht Hfm Hs He res.
  assert (Hv : verdict q x y = VRemove) by by apply verdict_VRemove.
  assert (Hres : res = (Removed, Quoter.delete i st)).
  { apply (inj Some). unfold res.
    rewrite (onQuoteSelection_first _ _ _ _ _ i q) by (done || congruence).
    simpl. by rewrite Hv. }
  rewrite Hres. simpl. unfold Quoter.delete. split_and!.
  - by apply first_match_stored in Hfm as [? _].
  - done.
  - apply lookup_delete_eq.
  - intros j Hj. by apply lookup_delete_ne.
  - apply dom_delete_L.
  - split.
    + intros Hgone j r Hji Hj. apply (Hgone j).
      by rewrite lookup_delete_ne.
    + intros Hnone j r [Hji Hj]%lookup_delete_Some. by apply (Hnone j).
Qed.

Lemma exact_match_removed_witness :
  let res := onQuoteSelection rd0 "a" 10 20 page_single in
  page_single !! 1%positive = Some (highlight rd0 "a" 10 20) ∧
  res.1 = Removed ∧
  res.2 !! 1%positive = None ∧
  (∀ j, j ≠ 1%positive → res.2 !! j = page_single !! j) ∧
  dom res.2 = dom page_single ∖ {[ 1%positive ]} ∧
  ((∀ j r, res.2 !! j = Some r → Quoter.on_page rd0 r = true →
           Quoter.range_of r ≠ candidate 10 20) ↔
   (∀ j r, j ≠ 1%positive → page_single !! j = Some r →
           Quoter.on_page rd0 r = true →
           Quoter.range_of r ≠ candidate 10 20)).
Proof.
  apply (exact_match_removed rd0 page_single "a" 10 20 1%positive
           (highlight rd0 "a" 10 20)).
  - discriminate.
  - exists [], []. split; [vm_compute; reflexivity | constructor].
  - reflexivity.
  - reflexivity.
Defined.

(** ** Candidate strictly inside a stored range: rejected *)

(** C3, as stated, fails: on [page_widened] the candidate [[12, 18]] lies
    strictly inside row 2 = [[10, 20]], but row 1 = [[0, 15]] comes first in
    page order and is extended instead. *)
Lemma contained_behind_other_extended :
  page_widened !! 2%positive = Some (highlight rd0 "b" 10 20) ∧
  Quoter.on_page rd0 (highlight rd0 "b" 10 20) = true ∧
  10 < 12 ∧ 20 > 18 ∧
  onQuoteSelection rd0 "d" 12 18 page_widened =
    (ExtendedEnd, <[ 1%positive := highlight rd0 "a" 0 18 ]> page_widened) ∧
  (onQuoteSelection rd0 "d" 12 18 page_widened).1 ≠ Rejected ∧
  (onQuoteSelection rd0 "d" 12 18 page_widened).2 ≠ page_widened.
Proof.
  split_and!; try (vm_compute; reflexivity); try (vm_compute; discriminate).
Qed.

(** C3 (amended): when the candidate lies strictly inside a stored range of
    the page and that row is the first match in page order, the handler
    answers [Rejected] and the table is unchanged. *)
Theorem contained_rejected rd (st : Quoter.Store) text x y i q :
  text ≠ "" →
  first_match (Quoter.get_for_page rd st) x y i q →
  Quoter.start_pos q < x → Quoter.end_pos q > y →
  onQuoteSelection rd text x y st = (Rejected, st).
Proof.
  intros Ht Hfm Hs He.
  assert (Hv : verdict q x y = VReject) by (apply verdict_VReject; lia).
  apply (inj Some).
  rewrite (onQuoteSelection_first _ _ _ _ _ i q) by (done || congruence).
  simpl. by rewrite Hv.
Qed.

Lemma contained_rejected_witness :
  onQuoteSelection rd0 "d" 12 15 page_single = (Rejected, page_single).
Proof.
  apply (contained_rejected rd0 page_single "d" 12 15 1%positive
           (highlight rd0 "a" 10 20)).
  - discriminate.
  - exists [], []. split; [vm_compute; reflexivity | constructor].
  - simpl. lia.
  - simpl. lia.
Defined.

(** ** Candidate starting inside a stored range: the end is extended *)

(** C4, as stated, fails: on [page_enclosed] the candidate [[15, 25]] starts
    inside row 2 = [[10, 20]] and ends after it, but row 1 = [[0, 30]] comes
    first in page order and contains the candidate, so it is rejected. *)
Lemma start_inside_behind_other_rejected :
  page_enclosed !! 2%positive = Some (highlight rd0 "b" 10 20) ∧
  Quoter.on_page rd0 (highlight rd0 "b" 10 20) = true ∧
  10 <= 15 <= 20 ∧ 25 > 20 ∧
  onQuoteSelection rd0 "d" 15 25 page_enclosed = (Rejected, page_enclosed) ∧
  (onQuoteSelection rd0 "d" 15 25 page_enclosed).1 ≠ ExtendedEnd ∧
  Quoter.end_pos <$> (onQuoteSelection rd0 "d" 15 25 page_enclosed).2 !! 2%positive
    = Some 20.
Proof.
  split_and!; try (vm_compute; reflexivity); try (vm_compute; discriminate).
Qed.

(** C4 (amended): when the candidate starts inside a stored range [[s, e]]
    of the page and ends after it, and that row is the first match in page
    order, the handler answers [ExtendedEnd]; the row keeps its id, start,
    content and every other field, its end becomes [y], and no other row
    changes or appears. *)
Theorem start_inside_extends_end rd (st : Quoter.Store) text x y i q :
  text ≠ "" →
  first_match (Quoter.get_for_page rd st) x y i q →
  Quoter.start_pos q <= x <= Quoter.end_pos q → y > Quoter.end_pos q →
  ∃ q',
    onQuoteSelection rd text x y st = (ExtendedEnd, <[ i := q' ]> st) ∧
    st !! i = Some q ∧
    Quoter.start_pos q' = Quoter.start_pos q ∧
    Quoter.end_pos q' = y ∧
    Quoter.content q' = Quoter.content q ∧
    Quoter.title q' = Quoter.title q ∧
    Quoter.book_id q' = Quoter.book_id q ∧
    Quoter.page_number q' = Quoter.page_number q ∧
    dom (<[ i := q' ]> st) = dom st.
Proof.
  intros Ht Hfm Hx Hy.
  assert (Hv : verdict q x y = VExtendEnd) by (apply verdict_VExtendEnd; lia).
  destruct (first_match_stored _ _ _ _ _ _ Hfm) as [Hi _].
  eexists. split.
  { apply (inj Some).
    rewrite (onQuoteSelection_first _ _ _ _ _ i q) by (done || congruence).
    simpl. rewrite Hv. reflexivity. }
  simpl. split_and!; try done.
  apply dom_insert_lookup_L. by exists q.
Qed.

Lemma start_inside_extends_end_witness :
  ∃ q',
    onQuoteSelection rd0 "c" 15 25 page_single
      = (ExtendedEnd, <[ 1%positive := q' ]> page_single) ∧
    page_single !! 1%positive = Some (highlight rd0 "a" 10 20) ∧
    Quoter.start_pos q' = 10 ∧
    Quoter.end_pos q' = 25 ∧
    Quoter.content q' = "a" ∧
    Quoter.title q' = "" ∧
    Quoter.book_id q' = 1 ∧
    Quoter.page_number q' = 0 ∧
    dom (<[ 1%positive := q' ]> page_single) = dom page_single.
Proof.
  apply (start_inside_extends_end rd0 page_single "c" 15 25 1%positive
           (highlight rd0 "a" 10 20)).
  - discriminate.
  - exists [], []. split; [vm_compute; reflexivity | constructor].
  - simpl. lia.
  - simpl. lia.
Defined.

(** ** Candidate ending inside a stored range: the start is extended *)

(** C5, as stated, fails: on [page_two_apart] the candidate [[5, 15]] ends
    inside row 2 = [[10, 20]] and starts before it, but row 1 = [[0, 7]]
    comes first in page order and has its end extended; row 2 keeps its
    start. *)
Lemma end_inside_behind_other_untouched :
  page_two_apart !! 2%positive = Some (highlight rd0 "b" 10 20) ∧
  Quoter.on_page rd0 (highlight rd0 "b" 10 20) = true ∧
  10 <= 15 <= 20 ∧ 5 < 10 ∧
  onQuoteSelection rd0 "c" 5 15 page_two_apart =
    (ExtendedEnd, <[ 1%positive := highlight rd0 "a" 0 15 ]> page_two_apart) ∧
  (onQuoteSelection rd0 "c" 5 15 page_two_apart).1 ≠ ExtendedStart ∧
  Quoter.start_pos <$> (onQuoteSelection rd0 "c" 5 15 page_two_apart).2 !! 2%positive
    = Some 10.
Proof.
  split_and!; try (vm_compute; reflexivity); try (vm_compute; discriminate).
Qed.

(** C5 (amended): when the candidate ends inside a stored range [[s, e]] of
    the page and starts before it, and that row is the first match in page
    order, the handler answers [ExtendedStart]; the row keeps its id, end,
    content and every other field, its start becomes [x], and no other row
    changes or appears. *)
Theorem end_inside_extends_start rd (st : Quoter.Store) text x y i q :
  text ≠ "" →
  first_match (Quoter.get_for_page rd st) x y i q →
  Quoter.start_pos q <= y <= Quoter.end_pos q → x < Quoter.start_pos q →
  ∃ q',
    onQuoteSelection rd text x y st = (ExtendedStart, <[ i := q' ]> st) ∧
    st !! i = Some q ∧
    Quoter.start_pos q' = x ∧
    Quoter.end_pos q' = Quoter.end_pos q ∧
    Quoter.content q' = Quoter.content q ∧
    Quoter.title q' = Quoter.title q ∧
    Quoter.book_id q' = Quoter.book_id q ∧
    Quoter.page_number q' = Quoter.page_number q ∧
    dom (<[ i := q' ]> st) = dom st.
Proof.
  intros Ht Hfm Hy Hx.
  assert (Hv : verdict q x y = VExtendStart) by (apply verdict_VExtendStart; lia).
  destruct (first_match_stored _ _ _ _ _ _ Hfm) as [Hi _].
  eexists. split.
  { apply (inj Some).
    rewrite (onQuoteSelection_first _ _ _ _ _ i q) by (done || congruence).
    simpl. rewrite Hv. reflexivity. }
  simpl. split_and!; try done.
  apply dom_insert_lookup_L. by exists q.
Qed.

Lemma end_inside_extends_start_witness :
  ∃ q',
    onQuoteSelection rd0 "c" 5 15 page_single
      = (ExtendedStart, <[ 1%positive := q' ]> page_single) ∧
    page_single !! 1%positive = Some (highlight rd0 "a" 10 20) ∧
    Quoter.start_pos q' = 5 ∧
    Quoter.end_pos q' = 20 ∧
    Quoter.content q' = "a" ∧
    Quoter.title q' = "" ∧
    Quoter.book_id q' = 1 ∧
    Quoter.page_number q' = 0 ∧
    dom (<[ 1%positive := q' ]> page_single) = dom page_single.
Proof.
  apply (end_inside_extends_start rd0 page_single "c" 5 15 1%positive
           (highlight rd0 "a" 10 20)).
  - discriminate.
  - exists [], []. split; [vm_compute; reflexivity | constructor].
  - simpl. lia.
  - simpl. lia.
Defined.

(** ** The page stays free of overlaps, when one range is in play *)

Lemma page_disjoint_delete rd (st : Quoter.Store) i :
  page_disjoint rd st → page_disjoint rd (base.delete i st).
Proof.
  intros Hd a b qa qb Hab Ha Hb.
  apply lookup_delete_Some in Ha as [_ Ha], Hb as [_ Hb]. by apply (Hd a b).
Qed.

Lemma page_disjoint_insert rd (st : Quoter.Store) i q' :
  page_disjoint rd st →
  (∀ j r, j ≠ i → st !! j = Some r → Quoter.on_page rd r = true →
     Quoter.on_page rd q' = true →
     overlaps (Quoter.range_of q') (Quoter.range_of r) = false) →
  page_disjoint rd (<[ i := q' ]> st).
Proof.
  intros Hd Hn a b qa qb Hab Ha Hb Hpa Hpb.
  apply lookup_insert_Some in Ha as [[<- <-]|[Hai Ha]];
    apply lookup_insert_Some in Hb as [[<- <-]|[Hbi Hb]].
  - done.
  - by apply (Hn b).
  - rewrite overlaps_sym. by apply (Hn a).
  - by apply (Hd a b).
Qed.

(** C1, as stated, fails: [page_two_apart] holds [[0, 7]] and [[10, 20]],
    which do not overlap; the candidate [[5, 15]] reaches into both, the
    first one is extended to [[0, 15]] and now overlaps the second. *)
Lemma widened_range_overlaps_next :
  page_disjoint rd0 page_two_apart ∧ 5 <= 15 ∧
  onQuoteSelection rd0 "c" 5 15 page_two_apart =
    (ExtendedEnd,
     <[ 2%positive := highlight rd0 "b" 10 20 ]>
       {[ 1%positive := highlight rd0 "a" 0 15 ]}) ∧
  ¬ page_disjoint rd0 (onQuoteSelection rd0 "c" 5 15 page_two_apart).2.
Proof.
  split_and!.
  - rewrite page_two_apart_rows. intros i j q r Hij Hi Hj _ _.
    apply lookup_insert_Some in Hi as [[<- <-]|[? Hi]];
      [|apply lookup_singleton_Some in Hi as [<- <-]];
      (apply lookup_insert_Some in Hj as [[<- <-]|[? Hj]];
        [|apply lookup_singleton_Some in Hj as [<- <-]]);
      done.
  - lia.
  - vm_compute. reflexivity.
  - intros Hd.
    specialize (Hd 1%positive 2%positive
                  (highlight rd0 "a" 0 15) (highlight rd0 "b" 10 20)).
    vm_compute in Hd. by discriminate Hd.
Qed.

(** C1 (amended): on a page whose highlights are pairwise non-overlapping,
    a candidate [[x, y]] with [x <= y] that overlaps at most one of them,
    and meets the one it overlaps in one of the four positions the loop acts
    on, leaves the page's highlights pairwise non-overlapping whatever the
    outcome. *)
Theorem single_overlap_stays_disjoint rd (st : Quoter.Store) text x y :
  x <= y →
  page_disjoint rd st →
  at_most_one_overlapped rd st x y →
  overlapped_are_handled rd st x y →
  page_disjoint rd (onQuoteSelection rd text x y st).2.
Proof.
  intros Hxy Hd Hone Hhandled. unfold onQuoteSelection.
  destruct (decide (text = "")) as [|Ht]; [done|].
  destruct (scan_quotes _ x y st) as [res|] eqn:Hscan.
  - apply scan_quotes_Some in Hscan as (i & q & Hfm & Hq & Hres).
    destruct (first_match_stored _ _ _ _ _ _ Hfm) as [Hi Hpage].
    pose proof (verdict_overlaps q x y Hxy Hq) as Hov.
    assert (Hothers : ∀ j r, j ≠ i → st !! j = Some r →
              Quoter.on_page rd r = true →
              overlaps (Quoter.range_of r) (candidate x y) = false
              ∧ overlaps (Quoter.range_of q) (Quoter.range_of r) = false).
    { intros j r Hj Hr Hpr. split; [|by apply (Hd i j)].
      destruct (overlaps (Quoter.range_of r) (candidate x y)) eqn:Hrc; [|done].
      destruct Hj. symmetry. by apply (Hone i j q r). }
    simpl in Hres. destruct (verdict q x y) eqn:Hv; simplify_eq; simpl.
    + by apply page_disjoint_delete.
    + done.
    + apply page_disjoint_insert; [done|]. intros j r Hj Hr Hpr _.
      destruct (Hothers j r Hj Hr Hpr) as [Hrc Hqr].
      apply verdict_VExtendStart in Hv.
      revert Hrc Hqr. unfold overlaps, Quoter.range_of, candidate. simpl.
      intros Hrc%Z.leb_gt Hqr%Z.leb_gt. apply Z.leb_gt. lia.
    + apply page_disjoint_insert; [done|]. intros j r Hj Hr Hpr _.
      destruct (Hothers j r Hj Hr Hpr) as [Hrc Hqr].
      apply verdict_VExtendEnd in Hv.
      revert Hrc Hqr. unfold overlaps, Quoter.range_of, candidate. simpl.
      intros Hrc%Z.leb_gt Hqr%Z.leb_gt. apply Z.leb_gt. lia.
  - apply scan_quotes_None in Hscan. unfold Quoter.create.
    destruct (Z.leb_spec x y) as [_|]; [|lia]. simpl.
    apply page_disjoint_insert; [done|]. intros j r Hj Hr Hpr _.
    destruct (overlaps _ (Quoter.range_of r)) eqn:Hov; [|done].
    rewrite overlaps_sym in Hov.
    pose proof (handled_verdict r x y Hxy (Hhandled j r Hr Hpr Hov)) as Hnext.
    destruct Hnext.
    assert (Hin : (j, r) ∈ Quoter.get_for_page rd st)
      by by apply elem_of_get_for_page.
    by apply (proj1 (Forall_forall _ _) Hscan) in Hin.
Qed.

Lemma single_overlap_stays_disjoint_witness :
  page_disjoint rd0 (onQuoteSelection rd0 "c" 15 25 page_single).2.
Proof.
  apply (single_overlap_stays_disjoint rd0 page_single "c" 15 25).
  - lia.
  - rewrite page_single_rows. intros i j q r Hij Hi Hj.
    apply lookup_singleton_Some in Hi as [<- _], Hj as [<- _]. done.
  - rewrite page_single_rows. intros i j q r Hi Hj.
    apply lookup_singleton_Some in Hi as [<- _], Hj as [<- _]. done.
  - rewrite page_single_rows. intros i q Hi _ _.
    apply lookup_singleton_Some in Hi as [_ <-].
    right. right. left. simpl. lia.
Defined.

(** ** Candidates touching one bound from inside: an overlap is stored *)

(** C9: on a page holding exactly one highlight [[s, e]], a candidate that
    starts at [s] and ends before [e], or starts after [s] and ends at [e],
    is matched by no branch of the loop; a new highlight [[x, y]] is
    created, and the page then holds two highlights that overlap. *)
Theorem boundary_candidate_creates_overlap rd (st : Quoter.Store) text x y i q :
  text ≠ "" →
  Quoter.get_for_page rd st = [(i, q)] →
  x <= y →
  (x = Quoter.start_pos q ∧ y < Quoter.end_pos q) ∨
  (Quoter.start_pos q < x ∧ y = Quoter.end_pos q) →
  let k := fresh (dom st) in
  let res := onQuoteSelection rd text x y st in
  verdict q x y = VNext ∧
  res = (Created, <[ k := highlight rd text x y ]> st) ∧
  k ≠ i ∧
  res.2 !! i = Some q ∧
  res.2 !! k = Some (highlight rd text x y) ∧
  Quoter.on_page rd q = true ∧
  Quoter.on_page rd (highlight rd text x y) = true ∧
  overlaps (Quoter.range_of q) (candidate x y) = true ∧
  ¬ page_disjoint rd res.2.
Proof.
  intros Ht Hpage Hxy Hpos k res.
  assert (Hv : verdict q x y = VNext).
  { unfold verdict, contains. simpl. zbool. }
  assert (Hiq : st !! i = Some q ∧ Quoter.on_page rd q = true).
  { apply elem_of_get_for_page. rewrite Hpage. apply elem_of_cons. by left. }
  destruct Hiq as [Hi Hpq].
  assert (Hk : st !! k = None) by apply not_elem_of_dom, is_fresh.
  assert (Hki : k ≠ i) by congruence.
  assert (Hres : res = (Created, <[ k := highlight rd text x y ]> st)).
  { unfold res, onQuoteSelection. rewrite decide_False by done.
    rewrite Hpage. simpl. rewrite Hv. unfold Quoter.create.
    destruct (Z.leb_spec x y); [done | lia]. }
  assert (Hpn : Quoter.on_page rd (highlight rd text x y) = true).
  { unfold Quoter.on_page, highlight. simpl. by rewrite !Z.eqb_refl. }
  assert (Hov : overlaps (Quoter.range_of q) (candidate x y) = true).
  { unfold overlaps, Quoter.range_of, candidate. simpl. apply Z.leb_le. lia. }
  rewrite Hres. simpl. split_and!; try done.
  - by rewrite lookup_insert_ne.
  - apply lookup_insert_eq.
  - intros Hd.
    assert (overlaps (Quoter.range_of q)
              (Quoter.range_of (highlight rd text x y)) = false) as Hno.
    { apply (Hd i k); try done.
      - by rewrite lookup_insert_ne.
      - apply lookup_insert_eq. }
    unfold Quoter.range_of, highlight in Hno. simpl in Hno.
    unfold Quoter.range_of, candidate in Hov. congruence.
Qed.

Lemma boundary_candidate_creates_overlap_witness :
  let k := fresh (dom page_single) in
  let res := onQuoteSelection rd0 "b" 10 15 page_single in
  verdict (highlight rd0 "a" 10 20) 10 15 = VNext ∧
  res = (Created, <[ k := highlight rd0 "b" 10 15 ]> page_single) ∧
  k ≠ 1%positive ∧
  res.2 !! 1%positive = Some (highlight rd0 "a" 10 20) ∧
  res.2 !! k = Some (highlight rd0 "b" 10 15) ∧
  Quoter.on_page rd0 (highlight rd0 "a" 10 20) = true ∧
  Quoter.on_page rd0 (highlight rd0 "b" 10 15) = true ∧
  overlaps (Quoter.range_of (highlight rd0 "a" 10 20)) (candidate 10 15) = true ∧
  ¬ page_disjoint rd0 res.2.
Proof.
  apply (boundary_candidate_creates_overlap rd0 page_single "b" 10 15 1%positive
           (highlight rd0 "a" 10 20)).
  - discriminate.
  - vm_compute. reflexivity.
  - lia.
  - left. simpl. lia.
Defined.

(** The symmetric position, on the same page: [[15, 20]] against
    [[10, 20]]. *)
Example boundary_candidate_at_end :
  onQuoteSelection rd0 "b" 15 20 page_single =
    (Created,
     <[ 2%positive := highlight rd0 "b" 15 20 ]>
       {[ 1%positive := highlight rd0 "a" 10 20 ]}).
Proof. vm_compute. reflexivity. Qed.

(** ** The loop against the resolver of the specification *)

(** The loop body tests "extend start" before "extend end", the
    specification the other way round; the two tests exclude each other, so
    both orders decide alike. *)
Lemma verdict_spec_case q x y :
  RangeResolver.spec_case (Quoter.start_pos q) (Quoter.end_pos q) x y =
  match verdict q x y with
  | VRemove => Some Removed
  | VReject => Some Rejected
  | VExtendStart => Some ExtendedStart
  | VExtendEnd => Some ExtendedEnd
  | VNext => None
  end.
Proof.
  unfold RangeResolver.spec_case, verdict, contains. simpl.
  repeat case_decide; zbool.
Qed.

Lemma scan_quotes_spec_resolve rd text qs x y st :
  x <= y →
  let d := RangeResolver.spec_resolve qs x y in
  match scan_quotes qs x y st with
  | Some res => res
  | None =>
      match Quoter.create rd "" text x y st with
      | Some (_, st') => (Created, st')
      | None => (ValidationError, st)
      end
  end = (d.1, RangeResolver.spec_effect rd text x y st d).
Proof.
  intros Hxy. induction qs as [|[i q] qs IH]; simpl.
  - unfold Quoter.create. by destruct (Z.leb_spec x y); [|lia].
  - rewrite verdict_spec_case. by destruct (verdict q x y).
Qed.

Lemma spec_resolve_first pre i q post x y o :
  Forall (λ p, RangeResolver.spec_case
                 (Quoter.start_pos p.2) (Quoter.end_pos p.2) x y = None) pre →
  RangeResolver.spec_case (Quoter.start_pos q) (Quoter.end_pos q) x y = Some o →
  RangeResolver.spec_resolve (pre ++ (i, q) :: post) x y = (o, Some (i, q)).
Proof.
  intros Hpre Hq. induction Hpre as [|[j r] pre Hr _ IH]; simpl in *.
  - by rewrite Hq.
  - by rewrite Hr.
Qed.

Lemma spec_resolve_none qs x y :
  Forall (λ p, RangeResolver.spec_case
                 (Quoter.start_pos p.2) (Quoter.end_pos p.2) x y = None) qs →
  RangeResolver.spec_resolve qs x y = (Created, None).
Proof.
  induction 1 as [|[j r] qs Hr _ IH]; simpl in *; [done|]. by rewrite Hr.
Qed.

Lemma spec_resolve_outcome qs x y :
  (RangeResolver.spec_resolve qs x y).1
    ∈ [Removed; Rejected; ExtendedEnd; ExtendedStart; Created].
Proof.
  induction qs as [|[j r] qs IH]; simpl.
  - set_solver.
  - rewrite verdict_spec_case. destruct (verdict r x y); simpl; try done;
      rewrite !elem_of_cons; tauto.
Qed.

(** C6: for a candidate [[x, y]] with [x <= y], the handler's outcome and
    table are those of the resolver that walks the page's ranges in page
    order, tries on each the cases exact, strictly contained, extend-end,
    extend-start in that order, stops at the first range where one applies,
    and answers [Created] when none does; the outcome is always one of the
    five. *)
Theorem resolution_is_first_match rd (st : Quoter.Store) text x y :
  text ≠ "" → x <= y →
  let qs := Quoter.get_for_page rd st in
  let d := RangeResolver.spec_resolve qs x y in
  let res := onQuoteSelection rd text x y st in
  res = (d.1, RangeResolver.spec_effect rd text x y st d) ∧
  res.1 ∈ [Removed; Rejected; ExtendedEnd; ExtendedStart; Created] ∧
  (∀ pre i q post o,
     qs = pre ++ (i, q) :: post →
     Forall (λ p, RangeResolver.spec_case
                    (Quoter.start_pos p.2) (Quoter.end_pos p.2) x y = None) pre →
     RangeResolver.spec_case (Quoter.start_pos q) (Quoter.end_pos q) x y = Some o →
     res = (o, RangeResolver.spec_effect rd text x y st (o, Some (i, q)))) ∧
  (Forall (λ p, RangeResolver.spec_case
                  (Quoter.start_pos p.2) (Quoter.end_pos p.2) x y = None) qs →
   res = (Created, <[ fresh (dom st) := highlight rd text x y ]> st)).
Proof.
  intros Ht Hxy qs d res.
  assert (Hres : res = (d.1, RangeResolver.spec_effect rd text x y st d)).
  { unfold res, onQuoteSelection. rewrite decide_False by done.
    by apply scan_quotes_spec_resolve. }
  split_and!.
  - done.
  - rewrite Hres. simpl. apply spec_resolve_outcome.
  - intros pre i q post o Hqs Hpre Hq. rewrite Hres. unfold d.
    rewrite Hqs. by rewrite (spec_resolve_first pre i q post x y o).
  - intros Hnone. rewrite Hres. unfold d.
    rewrite (spec_resolve_none qs x y Hnone). simpl.
    unfold Quoter.create. by destruct (Z.leb_spec x y); [|lia].
Qed.

Lemma resolution_is_first_match_witness :
  let qs := Quoter.get_for_page rd0 page_widened in
  let d := RangeResolver.spec_resolve qs 12 18 in
  let res := onQuoteSelection rd0 "d" 12 18 page_widened in
  res = (d.1, RangeResolver.spec_effect rd0 "d" 12 18 page_widened d) ∧
  res.1 ∈ [Removed; Rejected; ExtendedEnd; ExtendedStart; Created] ∧
  (∀ pre i q post o,
     qs = pre ++ (i, q) :: post →
     Forall (λ p, RangeResolver.spec_case
                    (Quoter.start_pos p.2) (Quoter.end_pos p.2) 12 18 = None) pre →
     RangeResolver.spec_case (Quoter.start_pos q) (Quoter.end_pos q) 12 18 = Some o →
     res = (o, RangeResolver.spec_effect rd0 "d" 12 18 page_widened (o, Some (i, q)))) ∧
  (Forall (λ p, RangeResolver.spec_case
                  (Quoter.start_pos p.2) (Quoter.end_pos p.2) 12 18 = None) qs →
   res = (Created, <[ fresh (dom page_widened) := highlight rd0 "d" 12 18 ]> page_widened)).
Proof.
  apply (resolution_is_first_match rd0 page_widened "d" 12 18).
  - discriminate.
  - lia.
Defined.

(** On [page_widened] the candidate [[12, 18]] lies strictly inside the
    second range in page order, yet the first range in page order decides. *)
Example first_range_decides :
  RangeResolver.spec_resolve (Quoter.get_for_page rd0 page_widened) 12 18
    = (ExtendedEnd, Some (1%positive, highlight rd0 "a" 0 15)) ∧
  (onQuoteSelection rd0 "d" 12 18 page_widened).1 = ExtendedEnd.
Proof. split; vm_compute; reflexivity. Qed.

(** ** Bookmarks *)

Lemma elem_of_bookmarks_for_page rd page (st : Bookmarker.Store) i b :
  (i, b) ∈ Bookmarker.get_for_page rd page st ↔
  st !! i = Some b ∧ Bookmarker.on_page rd page b = true.
Proof.
  unfold Bookmarker.get_for_page.
  rewrite merge_sort_Permutation, list_elem_of_filter, elem_of_map_to_list.
  simpl. tauto.
Qed.

Section AddBookmarkProperties.

Variable PositionToXY : Z → Z.

Abbreviation line_of b := (PositionToXY (Bookmarker.position b)).

(** What the loop leaves in the table: the rows it did not meet on the
    current line. *)
Lemma delete_on_line_lookup bkms cur count (st : Bookmarker.Store) j b :
  (delete_on_line PositionToXY bkms cur count st).2 !! j = Some b ↔
  st !! j = Some b ∧ ¬ ∃ b', (j, b') ∈ bkms ∧ line_of b' = cur.
Proof.
  revert count st. induction bkms as [|[i b0] bkms IH]; intros count st; simpl.
  - split; [intros H; split; [done|] | by intros [? _]].
    intros (b' & Hin & _). by apply not_elem_of_nil in Hin.
  - destruct (Z.eqb_spec (line_of b0) cur) as [Hline|Hline]; rewrite IH.
    + unfold Bookmarker.delete. rewrite lookup_delete_Some. split.
      * intros [[Hji Hj] Hrest]. split; [done|].
        intros (b' & [Heq|Hin]%elem_of_cons & Hb'); [congruence|].
        apply Hrest. by exists b'.
      * intros [Hj Hnone]. split_and!; [|done|].
        -- intros <-. apply Hnone. exists b0. split; [|done].
           apply elem_of_cons. by left.
        -- intros (b' & Hin & Hb'). apply Hnone. exists b'. split; [|done].
           apply elem_of_cons. by right.
    + split; intros [Hj Hnone]; (split; [done|]).
      * intros (b' & [Heq|Hin]%elem_of_cons & Hb'); [congruence|].
        apply Hnone. by exists b'.
      * intros (b' & Hin & Hb'). apply Hnone. exists b'. split; [|done].
        apply elem_of_cons. by right.
Qed.

(** What the loop counts: the rows it met on the current line. *)
Lemma delete_on_line_count bkms cur count (st : Bookmarker.Store) :
  (delete_on_line PositionToXY bkms cur count st).1 =
  (count + length (filter (λ p, line_of p.2 = cur) bkms))%nat.
Proof.
  revert count st. induction bkms as [|[i b0] bkms IH]; intros count st; simpl.
  - lia.
  - destruct (Z.eqb_spec (line_of b0) cur) as [Hline|Hline]; rewrite IH.
    + rewrite filter_cons_True by done. simpl. lia.
    + by rewrite filter_cons_False by done.
Qed.

Lemma delete_on_line_without rd cur (st : Bookmarker.Store) :
  (delete_on_line PositionToXY
     (Bookmarker.get_for_page rd (current_page rd) st) cur 0%nat st).2
  = without_line PositionToXY rd cur st.
Proof.
  apply map_eq. intros j. apply option_eq. intros b.
  rewrite delete_on_line_lookup. unfold without_line.
  rewrite map_lookup_filter_Some. simpl. unfold on_line.
  split; intros [Hj Hnone]; (split; [done|]).
  - intros [Hpage Hline]. apply Hnone. exists b. split; [|done].
    by apply elem_of_bookmarks_for_page.
  - intros (b' & [Hj' Hpage]%elem_of_bookmarks_for_page & Hline).
    apply Hnone. by simplify_eq.
Qed.

Lemma delete_on_line_met rd cur (st : Bookmarker.Store) :
  (delete_on_line PositionToXY
     (Bookmarker.get_for_page rd (current_page rd) st) cur 0%nat st).1 ≠ 0%nat
  ↔ ∃ j b, st !! j = Some b ∧ on_line PositionToXY rd cur b.
Proof.
  rewrite delete_on_line_count. simpl. unfold on_line.
  set (l := filter _ _). split.
  - intros Hl. destruct l as [|[j b] l'] eqn:El; [done|].
    assert (Hin : (j, b) ∈ l) by (rewrite El; apply elem_of_cons; by left).
    apply list_elem_of_filter in Hin as [Hline Hin]. simpl in Hline.
    apply elem_of_bookmarks_for_page in Hin as [Hj Hpage]. by exists j, b.
  - intros (j & b & Hj & Hpage & Hline).
    assert (Hin : (j, b) ∈ l).
    { apply list_elem_of_filter. split; [done|].
      by apply elem_of_bookmarks_for_page. }
    destruct l; [by apply not_elem_of_nil in Hin | done].
Qed.

(** With a name, or on a line that holds no bookmark, a bookmark is
    created after the line has been cleared. *)
Lemma add_bookmark_creates rd name ip (st : Bookmarker.Store) :
  name ≠ "" ∨ (∀ j b, st !! j = Some b → ¬ on_line PositionToXY rd (PositionToXY ip) b) →
  let st1 := without_line PositionToXY rd (PositionToXY ip) st in
  _add_bookmark PositionToXY rd name ip st =
    (BookmarkAdded, <[ fresh (dom st1) := bookmark rd name ip ]> st1).
Proof.
  intros Hcase st1. unfold _add_bookmark.
  pose proof (delete_on_line_without rd (PositionToXY ip) st) as Hst.
  pose proof (delete_on_line_met rd (PositionToXY ip) st) as Hmet.
  destruct (delete_on_line _ _ _ _ _) as [count st'] eqn:Eloop.
  simpl in Hst, Hmet. subst st'.
  destruct Hcase as [Hname|Hnone].
  - rewrite (bool_decide_eq_false_2 _ Hname), andb_false_r. done.
  - assert (count = 0%nat) as ->.
    { destruct (decide (count = 0%nat)) as [|Hc]; [done|].
      apply Hmet in Hc as (j & b & Hj & Hb). by destruct (Hnone j b). }
    done.
Qed.

(** Without a name, on a line that holds a bookmark, the line is cleared
    and nothing is created. *)
Lemma add_bookmark_removes rd ip (st : Bookmarker.Store) :
  (∃ j b, st !! j = Some b ∧ on_line PositionToXY rd (PositionToXY ip) b) →
  _add_bookmark PositionToXY rd "" ip st =
    (BookmarkRemoved, without_line PositionToXY rd (PositionToXY ip) st).
Proof.
  intros Hsome. unfold _add_bookmark.
  pose proof (delete_on_line_without rd (PositionToXY ip) st) as Hst.
  pose proof (delete_on_line_met rd (PositionToXY ip) st) as Hmet.
  destruct (delete_on_line _ _ _ _ _) as [count st'] eqn:Eloop.
  simpl in Hst, Hmet. subst st'.
  apply Hmet in Hsome. destruct count; [done|]. done.
Qed.

End AddBookmarkProperties.

(** ** Adding a bookmark to a line *)

(** C7, as stated, fails: a second request that carries a name does not
    remove the bookmark of the line but replaces it, and says so as an
    addition.  Positions 3 and 5 are on the same line of [ten_per_line]. *)
Lemma named_second_request_adds :
  ten_per_line 3 = ten_per_line 5 ∧
  _add_bookmark ten_per_line rd0 "" 3 ∅
    = (BookmarkAdded, {[ 1%positive := bookmark rd0 "" 3 ]}) ∧
  _add_bookmark ten_per_line rd0 "m" 5 {[ 1%positive := bookmark rd0 "" 3 ]}
    = (BookmarkAdded, {[ 1%positive := bookmark rd0 "m" 5 ]}) ∧
  (_add_bookmark ten_per_line rd0 "m" 5 {[ 1%positive := bookmark rd0 "" 3 ]}).1
    ≠ BookmarkRemoved.
Proof. split_and!; try (vm_compute; reflexivity). vm_compute. discriminate. Qed.

(** C7 (amended): on a line of the open page that holds no bookmark, a
    first request (with any name) creates one; a second request without a
    name on that line deletes it, creates nothing and reports the removal,
    leaving the table as it was at the start; a third request (with any
    name) creates one again. *)
Theorem unnamed_bookmark_toggles (PositionToXY : Z → Z) rd
    (st : Bookmarker.Store) n1 n3 p1 p2 p3 :
  (∀ j b, st !! j = Some b → ¬ on_line PositionToXY rd (PositionToXY p1) b) →
  PositionToXY p2 = PositionToXY p1 →
  PositionToXY p3 = PositionToXY p1 →
  let k := fresh (dom st) in
  let r1 := _add_bookmark PositionToXY rd n1 p1 st in
  let r2 := _add_bookmark PositionToXY rd "" p2 r1.2 in
  let r3 := _add_bookmark PositionToXY rd n3 p3 r2.2 in
  r1 = (BookmarkAdded, <[ k := bookmark rd n1 p1 ]> st) ∧
  r2 = (BookmarkRemoved, st) ∧
  r3 = (BookmarkAdded, <[ k := bookmark rd n3 p3 ]> st).
Proof.
  intros Hfree H2 H3 k r1 r2 r3.
  assert (Hst : without_line PositionToXY rd (PositionToXY p1) st = st).
  { unfold without_line. apply map_filter_id. intros j b Hj. simpl. by apply (Hfree j). }
  assert (Hk : st !! k = None) by apply not_elem_of_dom, is_fresh.
  assert (Hon : ∀ n p, PositionToXY p = PositionToXY p1 →
            on_line PositionToXY rd (PositionToXY p1) (bookmark rd n p)).
  { intros n p Hp. unfold on_line, Bookmarker.on_page, bookmark. simpl.
    by rewrite !Z.eqb_refl. }
  assert (Hr1 : r1 = (BookmarkAdded, <[ k := bookmark rd n1 p1 ]> st)).
  { unfold r1. rewrite add_bookmark_creates by (right; done).
    simpl. by rewrite Hst. }
  assert (Hr2 : r2 = (BookmarkRemoved, st)).
  { unfold r2. rewrite Hr1. simpl. rewrite add_bookmark_removes.
    - f_equal. rewrite H2. unfold without_line.
      rewrite map_filter_insert_False by (simpl; intros Hn; by apply Hn, Hon).
      rewrite map_filter_delete.
      fold (without_line PositionToXY rd (PositionToXY p1) st).
      rewrite Hst. by apply delete_id.
    - exists k, (bookmark rd n1 p1). rewrite lookup_insert_eq, H2.
      split; [done|]. by apply Hon. }
  split_and!; [done..|].
  unfold r3. rewrite Hr2. simpl. rewrite add_bookmark_creates.
  - simpl. by rewrite H3, Hst.
  - right. rewrite H3. done.
Qed.

Lemma unnamed_bookmark_toggles_witness :
  let k := fresh (dom (∅ : Bookmarker.Store)) in
  let r1 := _add_bookmark ten_per_line rd0 "" 3 ∅ in
  let r2 := _add_bookmark ten_per_line rd0 "" 5 r1.2 in
  let r3 := _add_bookmark ten_per_line rd0 "" 7 r2.2 in
  r1 = (BookmarkAdded, <[ k := bookmark rd0 "" 3 ]> ∅) ∧
  r2 = (BookmarkRemoved, ∅) ∧
  r3 = (BookmarkAdded, <[ k := bookmark rd0 "" 7 ]> ∅).
Proof.
  apply (unnamed_bookmark_toggles ten_per_line rd0 ∅ "" "" 3 5 7).
  - intros j b Hj. by rewrite lookup_empty in Hj.
  - reflexivity.
  - reflexivity.
Defined.

(** ** At most one bookmark a line *)

Lemma without_line_lookup (PositionToXY : Z → Z) rd lino
    (st : Bookmarker.Store) j b :
  without_line PositionToXY rd lino st !! j = Some b ↔
  st !! j = Some b ∧ ¬ on_line PositionToXY rd lino b.
Proof. unfold without_line. by rewrite map_lookup_filter_Some. Qed.

Lemma add_bookmark_cases (PositionToXY : Z → Z) rd name ip
    (st : Bookmarker.Store) :
  let st1 := without_line PositionToXY rd (PositionToXY ip) st in
  _add_bookmark PositionToXY rd name ip st = (BookmarkRemoved, st1) ∨
  _add_bookmark PositionToXY rd name ip st =
    (BookmarkAdded, <[ fresh (dom st1) := bookmark rd name ip ]> st1).
Proof.
  intros st1.
  destruct (decide (name = "")) as [->|Hname].
  - destruct (decide (∃ j b, st !! j = Some b ∧
        on_line PositionToXY rd (PositionToXY ip) b)) as [Hsome|Hnone].
    + left. by apply add_bookmark_removes.
    + right. apply add_bookmark_creates. right. intros j b Hj Hb.
      apply Hnone. by exists j, b.
  - right. apply add_bookmark_creates. by left.
Qed.

(** C8: if no line of the open page holds two bookmarks, then none does
    after a bookmark is added, with or without a name, through
    [_add_bookmark] or either of the two menu handlers that call it. *)
Theorem add_bookmark_one_per_line (PositionToXY : Z → Z) rd name ip
    (st : Bookmarker.Store) :
  one_per_line PositionToXY rd st →
  one_per_line PositionToXY rd (_add_bookmark PositionToXY rd name ip st).2 ∧
  one_per_line PositionToXY rd (onAddBookmark PositionToXY rd ip st).2 ∧
  one_per_line PositionToXY rd (onAddNamedBookmark PositionToXY rd name ip st).2.
Proof.
  intros Hone.
  assert (Hadd : ∀ n, one_per_line PositionToXY rd
                        (_add_bookmark PositionToXY rd n ip st).2).
  { intros n.
    assert (Hst1 : one_per_line PositionToXY rd
              (without_line PositionToXY rd (PositionToXY ip) st)).
    { intros i j b c [Hi _]%without_line_lookup [Hj _]%without_line_lookup.
      by apply Hone. }
    destruct (add_bookmark_cases PositionToXY rd n ip st) as [-> | ->];
      simpl; [done|].
    intros i j b c Hi Hj Hpb Hpc Hline.
    apply lookup_insert_Some in Hi as [[<- <-]|[Hik Hi]];
      apply lookup_insert_Some in Hj as [[<- <-]|[Hjk Hj]].
    - done.
    - apply without_line_lookup in Hj as [_ Hoff].
      destruct Hoff. split; [done|]. by rewrite <- Hline.
    - apply without_line_lookup in Hi as [_ Hoff].
      destruct Hoff. split; [done|]. by rewrite Hline.
    - by apply (Hst1 i j b c). }
  split_and!.
  - apply Hadd.
  - unfold onAddBookmark. specialize (Hadd "").
    by destruct (_add_bookmark _ _ _ _ _).
  - unfold onAddNamedBookmark. destruct (decide (name = "")); [done|].
    specialize (Hadd name). by destruct (_add_bookmark _ _ _ _ _).
Qed.

Lemma add_bookmark_one_per_line_witness :
  one_per_line ten_per_line rd0
    (_add_bookmark ten_per_line rd0 "m" 5 {[ 1%positive := bookmark rd0 "" 3 ]}).2 ∧
  one_per_line ten_per_line rd0
    (onAddBookmark ten_per_line rd0 5 {[ 1%positive := bookmark rd0 "" 3 ]}).2 ∧
  one_per_line ten_per_line rd0
    (onAddNamedBookmark ten_per_line rd0 "m" 5 {[ 1%positive := bookmark rd0 "" 3 ]}).2.
Proof.
  apply (add_bookmark_one_per_line ten_per_line rd0 "m" 5
           {[ 1%positive := bookmark rd0 "" 3 ]}).
  intros i j b c Hi Hj.
  apply lookup_singleton_Some in Hi as [<- _], Hj as [<- _]. done.
Defined.

(** ** A named bookmark replaces the bookmarks of its line *)

(** C10: with a non-empty name, on a line of the open page that holds one
    or more bookmarks, every bookmark of that line is deleted, all other
    rows are kept, and a new bookmark with that name is created at the
    caret position; the handler reports a removal (and creates nothing)
    only when the name is empty. *)
Theorem named_bookmark_replaces (PositionToXY : Z → Z) rd name ip
    (st : Bookmarker.Store) :
  name ≠ "" →
  (∃ j b, st !! j = Some b ∧ on_line PositionToXY rd (PositionToXY ip) b) →
  let st1 := without_line PositionToXY rd (PositionToXY ip) st in
  let k := fresh (dom st1) in
  _add_bookmark PositionToXY rd name ip st =
    (BookmarkAdded, <[ k := bookmark rd name ip ]> st1) ∧
  (∀ j b, st !! j = Some b → on_line PositionToXY rd (PositionToXY ip) b →
     st1 !! j = None) ∧
  (∀ j b, st !! j = Some b → ¬ on_line PositionToXY rd (PositionToXY ip) b →
     st1 !! j = Some b) ∧
  st1 !! k = None ∧
  (∀ name', (_add_bookmark PositionToXY rd name' ip st).1 = BookmarkRemoved →
     name' = "") ∧
  _add_bookmark PositionToXY rd "" ip st = (BookmarkRemoved, st1).
Proof.
  intros Hname Hsome st1 k. split_and!.
  - apply add_bookmark_creates. by left.
  - intros j b Hj Hb. destruct (st1 !! j) as [c|] eqn:Hc; [|done].
    apply without_line_lookup in Hc as [Hj' Hoff]. by simplify_eq.
  - intros j b Hj Hb. by apply without_line_lookup.
  - apply not_elem_of_dom, is_fresh.
  - intros name' Hrem. destruct (decide (name' = "")) as [|Hn]; [done|].
    rewrite add_bookmark_creates in Hrem by (by left). done.
  - by apply add_bookmark_removes.
Qed.

Lemma named_bookmark_replaces_witness :
  let st := ({[ 1%positive := bookmark rd0 "" 3 ]} : Bookmarker.Store) in
  let st1 := without_line ten_per_line rd0 (ten_per_line 5) st in
  let k := fresh (dom st1) in
  _add_bookmark ten_per_line rd0 "m" 5 st =
    (BookmarkAdded, <[ k := bookmark rd0 "m" 5 ]> st1) ∧
  (∀ j b, st !! j = Some b → on_line ten_per_line rd0 (ten_per_line 5) b →
     st1 !! j = None) ∧
  (∀ j b, st !! j = Some b → ¬ on_line ten_per_line rd0 (ten_per_line 5) b →
     st1 !! j = Some b) ∧
  st1 !! k = None ∧
  (∀ name', (_add_bookmark ten_per_line rd0 name' 5 st).1 = BookmarkRemoved →
     name' = "") ∧
  _add_bookmark ten_per_line rd0 "" 5 st = (BookmarkRemoved, st1).
Proof.
  apply (named_bookmark_replaces ten_per_line rd0 "m" 5
           {[ 1%positive := bookmark rd0 "" 3 ]}).
  - discriminate.
  - exists 1%positive, (bookmark rd0 "" 3). split; [reflexivity|].
    split; vm_compute; reflexivity.
Defined.

(** Two bookmarks on one line (rows left by an import, say): a named
    request clears both and leaves the new one alone on the line. *)
Example two_on_line_replaced :
  _add_bookmark ten_per_line rd0 "m" 5
    (<[ 2%positive := bookmark rd0 "b" 8 ]> {[ 1%positive := bookmark rd0 "a" 3 ]})
  = (BookmarkAdded, {[ 1%positive := bookmark rd0 "m" 5 ]}).
Proof. vm_compute. reflexivity. Qed.

(** ** Page order and the page invariant *)

#[global] Instance by_start_pos_total : Total Quoter.by_start_pos.
Proof. intros a b. unfold Quoter.by_start_pos. lia. Qed.

(** The page listing is in ascending order of [start_pos]. *)
Lemma get_for_page_sorted rd (st : Quoter.Store) :
  Sorted Quoter.by_start_pos (Quoter.get_for_page rd st).
Proof. apply (Sorted_merge_sort Quoter.by_start_pos). Qed.

(** On a page without overlaps, a candidate lying within a stored range has
    that range as its first match: the invariant of the specification gives
    the "first match" condition of C2 and C3 for free. *)
Lemma inside_is_first_match rd (st : Quoter.Store) x y i q :
  page_disjoint rd st → x <= y →
  st !! i = Some q → Quoter.on_page rd q = true →
  Quoter.start_pos q <= x → y <= Quoter.end_pos q →
  first_match (Quoter.get_for_page rd st) x y i q.
Proof.
  intros Hd Hxy Hi Hpage Hs He.
  assert (Hin : (i, q) ∈ Quoter.get_for_page rd st)
    by by apply elem_of_get_for_page.
  apply list_elem_of_split_l in Hin as (pre & post & Hqs & Hpre).
  exists pre, post. split; [done|].
  apply Forall_forall. intros [j r] Hjr. simpl.
  assert (Hjr' : (j, r) ∈ Quoter.get_for_page rd st).
  { rewrite Hqs. apply elem_of_app. by left. }
  apply elem_of_get_for_page in Hjr' as [Hj Hpr].
  assert (Hji : i ≠ j).
  { intros <-. by simplify_eq. }
  pose proof (Hd i j q r Hji Hi Hj Hpage Hpr) as Hno.
  destruct (decide (verdict r x y = VNext)) as [|Hv]; [done|].
  apply (verdict_overlaps r x y Hxy) in Hv.
  revert Hno Hv. unfold overlaps, Quoter.range_of, candidate. simpl.
  intros Hno%Z.leb_gt Hv%Z.leb_le. lia.
Qed.

(** On a page without overlaps, removing the exact match leaves no row of
    the page with the candidate's range. *)
Lemma exact_match_range_gone rd (st : Quoter.Store) text x y i q :
  text ≠ "" → page_disjoint rd st → x <= y →
  st !! i = Some q → Quoter.on_page rd q = true →
  Quoter.start_pos q = x → Quoter.end_pos q = y →
  ∀ j r, (onQuoteSelection rd text x y st).2 !! j = Some r →
    Quoter.on_page rd r = true → Quoter.range_of r ≠ candidate x y.
Proof.
  intros Ht Hd Hxy Hi Hpage Hs He j r.
  assert (Hfm : first_match (Quoter.get_for_page rd st) x y i q)
    by (apply inside_is_first_match; try done; lia).
  assert (Hv : verdict q x y = VRemove) by by apply verdict_VRemove.
  assert (Hres : onQuoteSelection rd text x y st = (Removed, Quoter.delete i st)).
  { apply (inj Some).
    rewrite (onQuoteSelection_first _ _ _ _ _ i q) by (done || congruence).
    simpl. by rewrite Hv. }
  rewrite Hres. simpl. unfold Quoter.delete.
  intros [Hji Hj]%lookup_delete_Some Hpr Hrange.
  assert (Hji' : i ≠ j) by done.
  pose proof (Hd i j q r Hji' Hi Hj Hpage Hpr) as Hno.
  revert Hno. unfold overlaps. rewrite Hrange. unfold Quoter.range_of, candidate.
  simpl. intros Hno%Z.leb_gt. lia.
Qed.

(** ** The scenario of the specification *)

Example scenario_exact :
  onQuoteSelection rd0 "x" 10 20 page_single = (Removed, ∅).
Proof. vm_compute. reflexivity. Qed.

Example scenario_inside :
  onQuoteSelection rd0 "x" 12 15 page_single = (Rejected, page_single).
Proof. vm_compute. reflexivity. Qed.

Example scenario_extend :
  onQuoteSelection rd0 "x" 15 25 page_single =
    (ExtendedEnd, {[ 1%positive := highlight rd0 "a" 10 25 ]}).
Proof. vm_compute. reflexivity. Qed.

Example scenario_create :
  onQuoteSelection rd0 "x" 30 40 ∅ =
    (Created, {[ 1%positive := highlight rd0 "x" 30 40 ]}).
Proof. vm_compute. reflexivity. Qed.

Example scenario_no_selection :
  onQuoteSelection rd0 "" 30 40 page_single = (NoSelection, page_single).
Proof. vm_compute. reflexivity. Qed.

(** * Further properties of the handlers *)

(** ** How [onQuoteSelection] can end *)

(** The handler ends in exactly one of four ways: without a selection; at
    the first row of the page the loop body acts on, with that row's effect;
    by creating a row after the loop met no such row; or, then, by failing
    in [create]. *)
Lemma onQuoteSelection_inv rd text x y (st : Quoter.Store) :
  let res := onQuoteSelection rd text x y st in
  (text = "" ∧ res = (NoSelection, st)) ∨
  (text ≠ "" ∧ ∃ i q,
     first_match (Quoter.get_for_page rd st) x y i q ∧
     st !! i = Some q ∧ Quoter.on_page rd q = true ∧
     ((verdict q x y = VRemove ∧ res = (Removed, Quoter.delete i st)) ∨
      (verdict q x y = VReject ∧ res = (Rejected, st)) ∨
      (verdict q x y = VExtendStart ∧
         res = (ExtendedStart, Quoter.set_start_pos i q x st)) ∨
      (verdict q x y = VExtendEnd ∧
         res = (ExtendedEnd, Quoter.set_end_pos i q y st)))) ∨
  (text ≠ "" ∧ x <= y ∧
     Forall (λ p, verdict p.2 x y = VNext) (Quoter.get_for_page rd st) ∧
     res = (Created, <[ fresh (dom st) := highlight rd text x y ]> st)) ∨
  (text ≠ "" ∧ y < x ∧
     Forall (λ p, verdict p.2 x y = VNext) (Quoter.get_for_page rd st) ∧
     res = (ValidationError, st)).
Proof.
  intros res. unfold res, onQuoteSelection.
  destruct (decide (text = "")) as [Ht|Ht]; [by left|]. right.
  destruct (scan_quotes _ x y st) as [r|] eqn:Hscan.
  - left. split; [done|].
    apply scan_quotes_Some in Hscan as (i & q & Hfm & Hq & Hr).
    destruct (first_match_stored _ _ _ _ _ _ Hfm) as [Hi Hpage].
    exists i, q. split_and!; [done..|].
    simpl in Hr. destruct (verdict q x y); simplify_eq; tauto.
  - right. apply scan_quotes_None in Hscan. unfold Quoter.create.
    destruct (Z.leb_spec x y); [left | right]; done.
Qed.

(** ** Rows of other pages and books *)

(** X1: whatever the selection, a highlight that is not on the open page of
    the open book is still stored, unchanged, after the handler. *)
Theorem other_pages_untouched rd text x y (st : Quoter.Store) j q :
  st !! j = Some q → Quoter.on_page rd q = false →
  (onQuoteSelection rd text x y st).2 !! j = Some q.
Proof.
  intros Hj Hoff.
  destruct (onQuoteSelection_inv rd text x y st)
    as [[_ ->] | [(_ & i & r & _ & Hi & Hon & Hcase) | [(_ & _ & _ & ->) | (_ & _ & _ & ->)]]];
    simpl; try done.
  - assert (Hij : i ≠ j) by (intros ->; simplify_eq; congruence).
    destruct Hcase as [[_ ->] | [[_ ->] | [[_ ->] | [_ ->]]]]; simpl;
      unfold Quoter.delete, Quoter.set_start_pos, Quoter.set_end_pos;
      by rewrite ?lookup_delete_ne, ?lookup_insert_ne.
  - rewrite lookup_insert_ne; [done|]. intros Hk.
    pose proof (is_fresh (dom st)) as Hfresh. rewrite Hk in Hfresh.
    apply Hfresh. by apply elem_of_dom_2 in Hj.
Qed.

Lemma other_pages_untouched_witness :
  (onQuoteSelection rd0 "d" 12 18
     (<[ 7%positive := {| Quoter.book_id := 1; Quoter.page_number := 3;
                          Quoter.title := ""; Quoter.content := "z";
                          Quoter.start_pos := 12; Quoter.end_pos := 18 |} ]>
        page_widened)).2 !! 7%positive
  = Some {| Quoter.book_id := 1; Quoter.page_number := 3;
            Quoter.title := ""; Quoter.content := "z";
            Quoter.start_pos := 12; Quoter.end_pos := 18 |}.
Proof.
  apply other_pages_untouched.
  - vm_compute. reflexivity.
  - vm_compute. reflexivity.
Defined.

(** ** How many highlights are stored *)

(** X2: the handler adds exactly one row when it answers [Created], removes
    exactly one when it answers [Removed], and keeps the set of stored ids
    as it is in every other case; without a selection, on a rejection and
    on a failed [create] the table is unchanged. *)
Theorem outcome_counts rd text x y (st : Quoter.Store) :
  let res := onQuoteSelection rd text x y st in
  match res.1 with
  | Created => size res.2 = S (size st) ∧ dom res.2 = {[ fresh (dom st) ]} ∪ dom st
  | Removed => S (size res.2) = size st ∧ ∃ i, i ∈ dom st ∧ dom res.2 = dom st ∖ {[ i ]}
  | ExtendedStart | ExtendedEnd => dom res.2 = dom st
  | NoSelection | Rejected | ValidationError => res.2 = st
  end.
Proof.
  intros res. unfold res.
  destruct (onQuoteSelection_inv rd text x y st)
    as [[_ ->] | [(_ & i & r & _ & Hi & Hon & Hcase) | [(_ & _ & _ & ->) | (_ & _ & _ & ->)]]];
    simpl; try done.
  - destruct Hcase as [[_ ->] | [[_ ->] | [[_ ->] | [_ ->]]]]; simpl;
      unfold Quoter.delete, Quoter.set_start_pos, Quoter.set_end_pos.
    + split.
      * rewrite (map_size_delete_Some i st) by by exists r.
        assert (size st ≠ 0%nat); [|lia].
        intros Hz. apply map_size_empty_inv in Hz. by rewrite Hz in Hi.
      * exists i. split; [by apply elem_of_dom_2 in Hi | apply dom_delete_L].
    + done.
    + apply dom_insert_lookup_L. by exists r.
    + apply dom_insert_lookup_L. by exists r.
  - split; [|apply dom_insert_L].
    apply map_size_insert_None, not_elem_of_dom, is_fresh.
Qed.

(** ** A selection that touches no highlight *)

Lemma no_overlap_no_verdict rd (st : Quoter.Store) x y :
  x <= y →
  (∀ i q, st !! i = Some q → Quoter.on_page rd q = true →
     overlaps (Quoter.range_of q) (candidate x y) = false) →
  Forall (λ p, verdict p.2 x y = VNext) (Quoter.get_for_page rd st).
Proof.
  intros Hxy Hfree. apply Forall_forall. intros [i q] Hin. simpl.
  apply elem_of_get_for_page in Hin as [Hi Hpage].
  destruct (decide (verdict q x y = VNext)) as [|Hv]; [done|].
  apply (verdict_overlaps q x y Hxy) in Hv. by rewrite (Hfree i q) in Hv.
Qed.

(** X3: a non-empty selection [[x, y]] with [x <= y] that shares no position
    with any highlight of the open page is stored as a new highlight with
    that range, the selected text as content and an empty title; all rows
    stored before are kept, and a page without overlaps stays without. *)
Theorem untouched_selection_created rd text x y (st : Quoter.Store) :
  text ≠ "" → x <= y →
  (∀ i q, st !! i = Some q → Quoter.on_page rd q = true →
     overlaps (Quoter.range_of q) (candidate x y) = false) →
  let k := fresh (dom st) in
  onQuoteSelection rd text x y st =
    (Created, <[ k := highlight rd text x y ]> st) ∧
  st !! k = None ∧
  (page_disjoint rd st →
   page_disjoint rd (onQuoteSelection rd text x y st).2).
Proof.
  intros Ht Hxy Hfree k.
  assert (Hres : onQuoteSelection rd text x y st =
                   (Created, <[ k := highlight rd text x y ]> st)).
  { unfold onQuoteSelection. rewrite decide_False by done.
    rewrite (proj2 (scan_quotes_None _ x y st))
      by by apply no_overlap_no_verdict.
    unfold Quoter.create. by destruct (Z.leb_spec x y); [|lia]. }
  split_and!; [done | apply not_elem_of_dom, is_fresh |].
  intros Hd. rewrite Hres. simpl. apply page_disjoint_insert; [done|].
  intros j r _ Hj Hpr _. rewrite overlaps_sym. by apply (Hfree j).
Qed.

Lemma untouched_selection_created_witness :
  let k := fresh (dom page_two_apart) in
  onQuoteSelection rd0 "c" 30 40 page_two_apart =
    (Created, <[ k := highlight rd0 "c" 30 40 ]> page_two_apart) ∧
  page_two_apart !! k = None ∧
  (page_disjoint rd0 page_two_apart →
   page_disjoint rd0 (onQuoteSelection rd0 "c" 30 40 page_two_apart).2).
Proof.
  apply (untouched_selection_created rd0 "c" 30 40 page_two_apart).
  - discriminate.
  - lia.
  - rewrite page_two_apart_rows. intros i q Hi _.
    apply lookup_insert_Some in Hi as [[_ <-]|[_ Hi]];
      [|apply lookup_singleton_Some in Hi as [_ <-]];
      vm_compute; reflexivity.
Defined.

(** ** Selecting the same text twice *)

(** X4: when a selection was stored as a new highlight, selecting the same
    range again removes that highlight and leaves the table exactly as it
    was before the first selection. *)
Theorem create_then_select_again rd text text' x y (st : Quoter.Store) :
  (onQuoteSelection rd text x y st).1 = Created →
  text' ≠ "" →
  onQuoteSelection rd text' x y (onQuoteSelection rd text x y st).2
    = (Removed, st).
Proof.
  intros Hcreated Ht'.
  destruct (onQuoteSelection_inv rd text x y st)
    as [[_ Hr] | [(_ & i & r & _ & _ & _ & Hcase) | [(Ht & Hxy & Hnone & Hr) | (_ & _ & _ & Hr)]]];
    try (rewrite Hr in Hcreated; discriminate).
  { destruct Hcase as [[_ Hr] | [[_ Hr] | [[_ Hr] | [_ Hr]]]];
      rewrite Hr in Hcreated; discriminate. }
  rewrite Hr. simpl.
  set (k := fresh (dom st)). set (new := highlight rd text x y).
  assert (Hk : st !! k = None) by apply not_elem_of_dom, is_fresh.
  assert (Hnew : Quoter.on_page rd new = true).
  { unfold Quoter.on_page, new, highlight. simpl. by rewrite !Z.eqb_refl. }
  assert (Hin : (k, new) ∈ Quoter.get_for_page rd (<[ k := new ]> st)).
  { apply elem_of_get_for_page. by rewrite lookup_insert_eq. }
  apply list_elem_of_split_l in Hin as (pre & post & Hqs & Hpre).
  assert (Hfm : first_match (Quoter.get_for_page rd (<[ k := new ]> st)) x y k new).
  { exists pre, post. split; [done|].
    apply Forall_forall. intros [j r] Hjr. simpl.
    assert (Hjr' : (j, r) ∈ Quoter.get_for_page rd (<[ k := new ]> st)).
    { rewrite Hqs. apply elem_of_app. by left. }
    apply elem_of_get_for_page in Hjr' as [Hj Hpr].
    apply lookup_insert_Some in Hj as [[<- <-]|[Hjk Hj]]; [done|].
    assert (Hold : (j, r) ∈ Quoter.get_for_page rd st)
      by by apply elem_of_get_for_page.
    by apply (proj1 (Forall_forall _ _) Hnone) in Hold. }
  assert (Hv : verdict new x y = VRemove) by by apply verdict_VRemove.
  apply (inj Some).
  rewrite (onQuoteSelection_first _ _ _ _ _ k new) by (done || congruence).
  simpl. rewrite Hv. unfold Quoter.delete.
  by rewrite delete_insert_eq, delete_id.
Qed.

Lemma create_then_select_again_witness :
  onQuoteSelection rd0 "d" 30 40
    (onQuoteSelection rd0 "c" 30 40 page_two_apart).2
  = (Removed, page_two_apart).
Proof.
  apply (create_then_select_again rd0 "c" "d" 30 40 page_two_apart).
  - vm_compute. reflexivity.
  - discriminate.
Defined.

(** ** Start before end *)

(** X5: when every stored highlight has [start_pos <= end_pos] and the
    selection has [x <= y], every stored highlight still has
    [start_pos <= end_pos] after the handler. *)
Theorem well_formed_kept rd text x y (st : Quoter.Store) :
  x <= y → well_formed st →
  well_formed (onQuoteSelection rd text x y st).2.
Proof.
  intros Hxy Hwf.
  destruct (onQuoteSelection_inv rd text x y st)
    as [[_ ->] | [(_ & i & r & _ & Hi & Hon & Hcase) | [(_ & _ & _ & ->) | (_ & _ & _ & ->)]]];
    simpl; try done.
  - destruct Hcase as [[_ ->] | [[_ ->] | [[Hv ->] | [Hv ->]]]]; simpl;
      unfold Quoter.delete, Quoter.set_start_pos, Quoter.set_end_pos.
    + intros j q [_ Hj]%lookup_delete_Some. by apply (Hwf j).
    + done.
    + apply verdict_VExtendStart in Hv.
      intros j q [[_ <-]|[_ Hj]]%lookup_insert_Some; [simpl; lia | by apply (Hwf j)].
    + apply verdict_VExtendEnd in Hv.
      intros j q [[_ <-]|[_ Hj]]%lookup_insert_Some; [simpl; lia | by apply (Hwf j)].
  - intros j q [[_ <-]|[_ Hj]]%lookup_insert_Some; [done | by apply (Hwf j)].
Qed.

Lemma well_formed_kept_witness :
  well_formed (onQuoteSelection rd0 "c" 15 25 page_single).2.
Proof.
  apply (well_formed_kept rd0 "c" 15 25 page_single).
  - lia.
  - rewrite page_single_rows. intros i q Hi.
    apply lookup_singleton_Some in Hi as [_ <-]. simpl. lia.
Defined.

(** The bound [x <= y] is needed: the text control never reports a
    selection with [x > y], but the loop body itself would store one. *)
Example reversed_selection_ill_formed :
  onQuoteSelection rd0 "c" 25 20 page_single
    = (ExtendedStart, {[ 1%positive := highlight rd0 "a" 25 20 ]}).
Proof. vm_compute. reflexivity. Qed.

(** ** What an extension stores *)

(** X6: when the handler answers [ExtendedStart] or [ExtendedEnd] for a
    selection with [x <= y], exactly one row of the open page was changed;
    it overlapped the selection, and its new range is the smallest range
    covering both its old range and the selection.  Its content and title
    are as before. *)
Theorem extension_is_hull rd text x y (st : Quoter.Store) :
  x <= y →
  (onQuoteSelection rd text x y st).1 = ExtendedStart ∨
  (onQuoteSelection rd text x y st).1 = ExtendedEnd →
  ∃ i q q',
    st !! i = Some q ∧ Quoter.on_page rd q = true ∧
    overlaps (Quoter.range_of q) (candidate x y) = true ∧
    (onQuoteSelection rd text x y st).2 = <[ i := q' ]> st ∧
    Quoter.start_pos q' = Z.min (Quoter.start_pos q) x ∧
    Quoter.end_pos q' = Z.max (Quoter.end_pos q) y ∧
    Quoter.content q' = Quoter.content q ∧
    Quoter.title q' = Quoter.title q ∧
    Quoter.on_page rd q' = true.
Proof.
  intros Hxy Hext.
  destruct (onQuoteSelection_inv rd text x y st)
    as [[_ Hr] | [(_ & i & q & _ & Hi & Hon & Hcase) | [(_ & _ & _ & Hr) | (_ & _ & _ & Hr)]]];
    try (rewrite Hr in Hext; simpl in Hext; destruct Hext; discriminate).
  destruct Hcase as [[Hv Hr] | [[Hv Hr] | [[Hv Hr] | [Hv Hr]]]];
    try (rewrite Hr in Hext; simpl in Hext; destruct Hext; discriminate).
  - assert (Hov : overlaps (Quoter.range_of q) (candidate x y) = true)
      by (apply verdict_overlaps; [done | congruence]).
    apply verdict_VExtendStart in Hv.
    eexists i, q, _. rewrite Hr. simpl. unfold Quoter.set_start_pos.
    split_and!; try done; simpl; lia.
  - assert (Hov : overlaps (Quoter.range_of q) (candidate x y) = true)
      by (apply verdict_overlaps; [done | congruence]).
    apply verdict_VExtendEnd in Hv.
    eexists i, q, _. rewrite Hr. simpl. unfold Quoter.set_end_pos.
    split_and!; try done; simpl; lia.
Qed.

Lemma extension_is_hull_witness :
  ∃ i q q',
    page_two_apart !! i = Some q ∧ Quoter.on_page rd0 q = true ∧
    overlaps (Quoter.range_of q) (candidate 5 15) = true ∧
    (onQuoteSelection rd0 "c" 5 15 page_two_apart).2 = <[ i := q' ]> page_two_apart ∧
    Quoter.start_pos q' = Z.min (Quoter.start_pos q) 5 ∧
    Quoter.end_pos q' = Z.max (Quoter.end_pos q) 15 ∧
    Quoter.content q' = Quoter.content q ∧
    Quoter.title q' = Quoter.title q ∧
    Quoter.on_page rd0 q' = true.
Proof.
  apply (extension_is_hull rd0 "c" 5 15 page_two_apart).
  - lia.
  - right. vm_compute. reflexivity.
Defined.

(** ** What a removal and a rejection tell *)

(** X7: the handler answers [Removed] only if a highlight of the open page
    had exactly the selected range, and then the table is the old one
    without that row; it answers [Rejected] only if the selection lies
    strictly inside a highlight of the open page. *)
Theorem removed_or_rejected_sound rd text x y (st : Quoter.Store) :
  (onQuoteSelection rd text x y st).1 = Removed ∨
  (onQuoteSelection rd text x y st).1 = Rejected →
  ∃ i q,
    st !! i = Some q ∧ Quoter.on_page rd q = true ∧
    match (onQuoteSelection rd text x y st).1 with
    | Removed =>
        Quoter.start_pos q = x ∧ Quoter.end_pos q = y ∧
        (onQuoteSelection rd text x y st).2 = base.delete i st
    | _ =>
        Quoter.start_pos q < x ∧ y < Quoter.end_pos q ∧
        (onQuoteSelection rd text x y st).2 = st
    end.
Proof.
  intros Hout.
  destruct (onQuoteSelection_inv rd text x y st)
    as [[_ Hr] | [(_ & i & q & _ & Hi & Hon & Hcase) | [(_ & _ & _ & Hr) | (_ & _ & _ & Hr)]]];
    try (rewrite Hr in Hout; simpl in Hout; destruct Hout; discriminate).
  destruct Hcase as [[Hv Hr] | [[Hv Hr] | [[Hv Hr] | [Hv Hr]]]];
    try (rewrite Hr in Hout; simpl in Hout; destruct Hout; discriminate).
  - apply verdict_VRemove in Hv as [Hs He].
    exists i, q. rewrite Hr. simpl. done.
  - apply verdict_VReject in Hv as (_ & Hs & He).
    exists i, q. rewrite Hr. simpl. done.
Qed.

Lemma removed_or_rejected_sound_witness :
  ∃ i q,
    page_enclosed !! i = Some q ∧ Quoter.on_page rd0 q = true ∧
    match (onQuoteSelection rd0 "d" 15 25 page_enclosed).1 with
    | Removed =>
        Quoter.start_pos q = 15 ∧ Quoter.end_pos q = 25 ∧
        (onQuoteSelection rd0 "d" 15 25 page_enclosed).2 = base.delete i page_enclosed
    | _ =>
        Quoter.start_pos q < 15 ∧ 25 < Quoter.end_pos q ∧
        (onQuoteSelection rd0 "d" 15 25 page_enclosed).2 = page_enclosed
    end.
Proof.
  apply (removed_or_rejected_sound rd0 "d" 15 25 page_enclosed).
  right. vm_compute. reflexivity.
Defined.

(** ** Bookmarks off the caret's line *)

(** X8: whatever the name, a bookmark that is not on the caret's line of the
    open page (another line, another page or another book) is still stored,
    unchanged, after [_add_bookmark]. *)
Theorem other_lines_untouched (PositionToXY : Z → Z) rd name ip
    (st : Bookmarker.Store) j b :
  st !! j = Some b →
  ¬ on_line PositionToXY rd (PositionToXY ip) b →
  (_add_bookmark PositionToXY rd name ip st).2 !! j = Some b.
Proof.
  intros Hj Hoff.
  assert (Hst1 : without_line PositionToXY rd (PositionToXY ip) st !! j = Some b)
    by by apply without_line_lookup.
  destruct (add_bookmark_cases PositionToXY rd name ip st) as [-> | ->];
    simpl; [done|].
  rewrite lookup_insert_ne; [done|]. intros Hk.
  pose proof (is_fresh (dom (without_line PositionToXY rd (PositionToXY ip) st)))
    as Hfresh.
  rewrite Hk in Hfresh. apply Hfresh. by apply elem_of_dom_2 in Hst1.
Qed.

Lemma other_lines_untouched_witness :
  (_add_bookmark ten_per_line rd0 "m" 5
     (<[ 2%positive := bookmark rd0 "b" 18 ]> {[ 1%positive := bookmark rd0 "a" 3 ]})).2
    !! 2%positive
  = Some (bookmark rd0 "b" 18).
Proof.
  apply other_lines_untouched.
  - vm_compute. reflexivity.
  - intros [_ Hline]. vm_compute in Hline. discriminate.
Defined.

(** ** What the caret's line holds afterwards *)

(** X9: after [_add_bookmark] the caret's line of the open page holds
    exactly one bookmark, the new one at the caret with the given name,
    when the answer is [BookmarkAdded], and no bookmark at all when the
    answer is [BookmarkRemoved], however many it held before. *)
Theorem caret_line_afterwards (PositionToXY : Z → Z) rd name ip
    (st : Bookmarker.Store) :
  let res := _add_bookmark PositionToXY rd name ip st in
  match res.1 with
  | BookmarkAdded =>
      ∃ k, res.2 !! k = Some (bookmark rd name ip) ∧
           on_line PositionToXY rd (PositionToXY ip) (bookmark rd name ip) ∧
           ∀ j b, res.2 !! j = Some b →
                  on_line PositionToXY rd (PositionToXY ip) b → j = k
  | BookmarkRemoved =>
      ∀ j b, res.2 !! j = Some b →
             ¬ on_line PositionToXY rd (PositionToXY ip) b
  end.
Proof.
  intros res. unfold res.
  destruct (add_bookmark_cases PositionToXY rd name ip st) as [-> | ->]; simpl.
  - intros j b Hj. by apply without_line_lookup in Hj as [_ ?].
  - eexists. split_and!.
    + apply lookup_insert_eq.
    + unfold on_line, Bookmarker.on_page, bookmark. simpl.
      by rewrite !Z.eqb_refl.
    + intros j b [[<- _]|[_ Hj]]%lookup_insert_Some Hon; [done|].
      by apply without_line_lookup in Hj as [_ ?].
Qed.

(** ** When a request removes *)

(** X10: [_add_bookmark] answers [BookmarkRemoved] exactly when it is given
    no name and the caret's line of the open page holds a bookmark. *)
Theorem removes_iff_unnamed_on_marked_line (PositionToXY : Z → Z) rd name ip
    (st : Bookmarker.Store) :
  (_add_bookmark PositionToXY rd name ip st).1 = BookmarkRemoved ↔
  name = "" ∧
  ∃ j b, st !! j = Some b ∧ on_line PositionToXY rd (PositionToXY ip) b.
Proof.
  split.
  - intros Hrem.
    destruct (decide (name = "")) as [->|Hname].
    + split; [done|].
      destruct (decide (∃ j b, st !! j = Some b ∧
          on_line PositionToXY rd (PositionToXY ip) b)) as [|Hnone]; [done|].
      rewrite add_bookmark_creates in Hrem; [done|].
      right. intros j b Hj Hb. apply Hnone. by exists j, b.
    + rewrite add_bookmark_creates in Hrem by (by left). done.
  - intros [-> Hsome]. by rewrite add_bookmark_removes.
Qed.

(** ** Stripping and splitting *)

Section TextInputProperties.

Variable isspace : ascii → bool.

Lemma append_cons c (a b : string) : String c a +:+ b = String c (a +:+ b).
Proof. reflexivity. Qed.

Lemma append_nil (b : string) : "" +:+ b = b.
Proof. reflexivity. Qed.

Lemma lstrip_split s :
  ∃ a, s = a +:+ lstrip isspace s ∧ all_space isspace a = true.
Proof.
  induction s as [|c s [a [Hs Ha]]]; simpl.
  - by exists "".
  - destruct (isspace c) eqn:Hc.
    + exists (String c a). rewrite append_cons. simpl. rewrite Hc, Ha.
      split; [by f_equal | done].
    + by exists "".
Qed.

Lemma lstrip_first s c :
  first_char (lstrip isspace s) = Some c → isspace c = false.
Proof.
  induction s as [|c' s IH]; simpl; [done|].
  destruct (isspace c') eqn:Hc; [done|]. simpl. congruence.
Qed.

Lemma lstrip_empty s : lstrip isspace s = "" ↔ all_space isspace s = true.
Proof.
  induction s as [|c s IH]; simpl; [done|].
  destruct (isspace c); simpl; [done|]. split; discriminate.
Qed.

Lemma rstrip_split s :
  ∃ b, s = rstrip isspace s +:+ b ∧ all_space isspace b = true.
Proof.
  induction s as [|c s [b [Hs Hb]]]; simpl.
  - by exists "".
  - destruct (rstrip isspace s) as [|c' r] eqn:Hr.
    + rewrite append_nil in Hs. subst b. destruct (isspace c) eqn:Hc.
      * exists (String c s). rewrite append_nil. simpl. by rewrite Hc, Hb.
      * exists s. by rewrite append_cons, append_nil.
    + exists b. split; [|done]. rewrite append_cons. by f_equal.
Qed.

Lemma rstrip_last s c :
  last_char (rstrip isspace s) = Some c → isspace c = false.
Proof.
  induction s as [|c' s IH]; simpl; [done|].
  destruct (rstrip isspace s) as [|c'' r] eqn:Hr.
  - destruct (isspace c') eqn:Hc; simpl; [done | congruence].
  - simpl. simpl in IH. done.
Qed.

Lemma rstrip_empty s : rstrip isspace s = "" ↔ all_space isspace s = true.
Proof.
  induction s as [|c s IH]; simpl; [done|].
  destruct (rstrip isspace s) as [|c' r] eqn:Hr.
  - destruct (isspace c); simpl.
    + split; [intros _; by apply IH | done].
    + split; discriminate.
  - split; [discriminate|]. intros [_ Hs]%andb_prop.
    apply IH in Hs. discriminate.
Qed.

Lemma rstrip_first s :
  rstrip isspace s ≠ "" → first_char (rstrip isspace s) = first_char s.
Proof.
  destruct s as [|c s]; simpl; [done|].
  destruct (rstrip isspace s); [|done]. by destruct (isspace c).
Qed.

Lemma lstrip_id s :
  (∀ c, first_char s = Some c → isspace c = false) → lstrip isspace s = s.
Proof.
  destruct s as [|c s]; simpl; [done|]. intros H. by rewrite (H c).
Qed.

Lemma rstrip_id s :
  (∀ c, last_char s = Some c → isspace c = false) → rstrip isspace s = s.
Proof.
  induction s as [|c s IH]; simpl; [done|]. intros H.
  destruct s as [|c' s'].
  - simpl. by rewrite (H c).
  - rewrite IH by done. done.
Qed.

Lemma all_space_app a b :
  all_space isspace (a +:+ b) = all_space isspace a && all_space isspace b.
Proof.
  induction a as [|c a IH]; [done|].
  rewrite append_cons. simpl. by rewrite IH, andb_assoc.
Qed.

Lemma strip_empty s : strip isspace s = "" ↔ all_space isspace s = true.
Proof.
  unfold strip. rewrite rstrip_empty.
  destruct (lstrip_split s) as (a & Hs & Ha).
  rewrite Hs at 2. rewrite all_space_app, Ha. done.
Qed.

Lemma strip_id s :
  (∀ c, first_char s = Some c → isspace c = false) →
  (∀ c, last_char s = Some c → isspace c = false) →
  strip isspace s = s.
Proof. intros Hf Hl. unfold strip. rewrite lstrip_id by done. by apply rstrip_id. Qed.

Lemma strip_ends s :
  (∀ c, first_char (strip isspace s) = Some c → isspace c = false) ∧
  (∀ c, last_char (strip isspace s) = Some c → isspace c = false).
Proof.
  unfold strip. split; intros c Hc.
  - destruct (decide (rstrip isspace (lstrip isspace s) = "")) as [He|Hne].
    + by rewrite He in Hc.
    + rewrite rstrip_first in Hc by done. by apply lstrip_first in Hc.
  - by apply rstrip_last in Hc.
Qed.

(** A returned text is the stripped entry of a confirmed dialog. *)
Lemma get_text_from_user_strip ok entered value :
  get_text_from_user isspace ok entered = Some value →
  ok = true ∧ value = strip isspace entered ∧ value ≠ "".
Proof.
  unfold get_text_from_user. destruct ok; [|done].
  destruct (decide (strip isspace entered = "")) as [|Hne]; [done|].
  by intros [= <-].
Qed.

(** X12: what [get_text_from_user] returns, when it returns a text, is the
    entered text without its leading and trailing whitespace: it is not
    empty, neither starts nor ends with whitespace, only whitespace was cut
    off on either side, and entering it again gives it back as it is.  A
    text is only returned from a confirmed dialog. *)
Theorem get_text_from_user_trimmed ok entered value :
  get_text_from_user isspace ok entered = Some value →
  ok = true ∧ value ≠ "" ∧
  (∃ a b, entered = a +:+ value +:+ b ∧
          all_space isspace a = true ∧ all_space isspace b = true) ∧
  (∀ c, first_char value = Some c → isspace c = false) ∧
  (∀ c, last_char value = Some c → isspace c = false) ∧
  get_text_from_user isspace true value = Some value.
Proof.
  unfold get_text_from_user. destruct ok; [|done].
  destruct (decide (strip isspace entered = "")) as [|Hne]; [done|].
  intros [= <-]. destruct (strip_ends entered) as [Hf Hl].
  split_and!; try done.
  - destruct (lstrip_split entered) as (a & Hs & Ha).
    destruct (rstrip_split (lstrip isspace entered)) as (b & Hs' & Hb).
    exists a, b. split_and!; [|done..]. unfold strip.
    rewrite <- Hs'. done.
  - rewrite strip_id by done. by rewrite decide_False.
Qed.

(** X13: [get_text_from_user] returns nothing exactly when the dialog was
    not confirmed or the entered text is empty or all whitespace. *)
Theorem get_text_from_user_nothing ok entered :
  get_text_from_user isspace ok entered = None ↔
  ok = false ∨ all_space isspace entered = true.
Proof.
  unfold get_text_from_user. destruct ok.
  - destruct (decide (strip isspace entered = "")) as [He|Hne].
    + apply strip_empty in He. tauto.
    + split; [done|]. intros [|Hs]; [done|]. by apply strip_empty in Hs.
  - tauto.
Qed.

End TextInputProperties.

Lemma get_text_from_user_trimmed_witness :
  true = true ∧ "top shelf" ≠ "" ∧
  (∃ a b, "  top shelf " = a +:+ "top shelf" +:+ b ∧
          all_space ascii_isspace a = true ∧ all_space ascii_isspace b = true) ∧
  (∀ c, first_char "top shelf" = Some c → ascii_isspace c = false) ∧
  (∀ c, last_char "top shelf" = Some c → ascii_isspace c = false) ∧
  get_text_from_user ascii_isspace true "top shelf" = Some "top shelf".
Proof.
  apply (get_text_from_user_trimmed ascii_isspace true "  top shelf " "top shelf").
  vm_compute. reflexivity.
Defined.

(** ** Tags *)

Section TagProperties.

Variable isspace : ascii → bool.

Lemma no_space_snoc w c :
  no_space isspace w = true → isspace c = false →
  no_space isspace (w +:+ String c "") = true.
Proof.
  intros Hw Hc. induction w as [|c' w IH].
  - rewrite append_nil. simpl. by rewrite Hc.
  - rewrite append_cons. simpl in *. apply andb_prop in Hw as [-> Hw].
    by rewrite IH.
Qed.

Lemma snoc_not_empty (w : string) c : w +:+ String c "" ≠ "".
Proof. by destruct w. Qed.

Lemma split_from_clean w s :
  no_space isspace w = true →
  Forall (λ t, t ≠ "" ∧ no_space isspace t = true) (split_from isspace w s).
Proof.
  revert w. induction s as [|c s IH]; intros w Hw; simpl.
  - destruct (decide (w = "")); [constructor|]. by repeat constructor.
  - destruct (isspace c) eqn:Hc.
    + destruct (decide (w = "")).
      * by apply IH.
      * constructor; [done | by apply IH].
    + apply IH. by apply no_space_snoc.
Qed.

Lemma append_assoc (a b c : string) : (a +:+ b) +:+ c = a +:+ b +:+ c.
Proof.
  induction a as [|x a IH]; [done|]. rewrite !append_cons. by f_equal.
Qed.

Lemma append_empty_r (a : string) : a +:+ "" = a.
Proof. induction a as [|x a IH]; [done|]. rewrite append_cons. by f_equal. Qed.

Lemma split_from_joined w s :
  foldr String.append "" (split_from isspace w s)
  = w +:+ without_space isspace s.
Proof.
  revert w. induction s as [|c s IH]; intros w; simpl.
  - destruct (decide (w = "")) as [->|]; simpl; [done|].
    by rewrite !append_empty_r.
  - destruct (isspace c) eqn:Hc.
    + destruct (decide (w = "")) as [->|]; simpl.
      * apply IH.
      * rewrite IH. by rewrite append_nil.
    + rewrite IH. rewrite append_assoc. by rewrite append_cons, append_nil.
Qed.

Lemma no_space_ends t :
  no_space isspace t = true →
  (∀ c, first_char t = Some c → isspace c = false) ∧
  (∀ c, last_char t = Some c → isspace c = false).
Proof.
  intros Ht. split.
  - destruct t as [|c' t]; simpl in *; [done|]. intros c [= <-].
    apply andb_prop in Ht as [Hc _]. by apply negb_true_iff.
  - induction t as [|c' t IH]; simpl in *; [done|].
    apply andb_prop in Ht as [Hc Ht]. destruct t as [|c'' t'].
    + intros c [= <-]. by apply negb_true_iff.
    + by apply IH.
Qed.

(** The words of [split] are already stripped. *)
Lemma strip_words tags_text :
  strip isspace <$> split isspace tags_text = split isspace tags_text.
Proof.
  assert (Hclean : Forall (λ t, t ≠ "" ∧ no_space isspace t = true)
                     (split isspace tags_text))
    by by apply split_from_clean.
  induction Hclean as [|t l [_ Ht] _ IH]; [done|].
  rewrite fmap_cons, IH. f_equal.
  destruct (no_space_ends t Ht). by apply strip_id.
Qed.

Lemma tags_to_append_clean tags_text :
  Forall (λ tag, tag ≠ "" ∧ no_space isspace tag = true)
    (tags_to_append isspace tags_text).
Proof.
  unfold tags_to_append. rewrite strip_words. by apply split_from_clean.
Qed.

(** X14: the calls of [strip] on the words of [split] change nothing: the
    tags appended are the words themselves; none is empty, none holds a
    whitespace character, and strung together they are the entered text
    without its whitespace. *)
Theorem tags_are_clean_words tags_text :
  tags_to_append isspace tags_text = split isspace tags_text ∧
  Forall (λ tag, tag ≠ "" ∧ no_space isspace tag = true)
    (tags_to_append isspace tags_text) ∧
  foldr String.append "" (tags_to_append isspace tags_text)
  = without_space isspace tags_text.
Proof.
  unfold tags_to_append. rewrite strip_words. split_and!.
  - done.
  - by apply split_from_clean.
  - unfold split. by rewrite split_from_joined, append_nil.
Qed.

End TagProperties.

Example tags_of_a_line :
  tags_to_append ascii_isspace "  rocq   proof
 assistant " = ["rocq"; "proof"; "assistant"].
Proof. vm_compute. reflexivity. Qed.

(** ** Adding a comment *)

(** X15: [onAddNote] never runs into the validation failure of [create].
    It stores nothing, and changes nothing, exactly when the comment dialog
    was not confirmed or held only whitespace; otherwise it adds one row on
    the open page at the caret, with an empty title and the trimmed text,
    never empty, as content, keeping all other rows.  The row has tags only
    if Shift was held, and each tag is a non-empty word without
    whitespace. *)
Theorem onAddNote_stores_trimmed (isspace : ascii → bool) rd _with_tags ip
    comment_dialog tags_dialog (st : NoteTaker.Store) :
  let res := onAddNote isspace rd _with_tags ip comment_dialog tags_dialog st in
  res.1 ≠ CommentInvalid ∧
  (res.1 = NoComment ↔
     comment_dialog.1 = false ∨ all_space isspace comment_dialog.2 = true) ∧
  (res.1 = NoComment → res.2 = st) ∧
  (res.1 = CommentAdded →
     ∃ n, res.2 = <[ fresh (dom st) := n ]> st ∧
          st !! fresh (dom st) = None ∧
          NoteTaker.content n = strip isspace comment_dialog.2 ∧
          NoteTaker.content n ≠ "" ∧
          NoteTaker.title n = "" ∧
          NoteTaker.position n = ip ∧
          NoteTaker.book_id n = current_book rd ∧
          NoteTaker.page_number n = current_page rd ∧
          Forall (λ tag, tag ≠ "" ∧ no_space isspace tag = true)
            (NoteTaker.tags n) ∧
          (_with_tags = false → NoteTaker.tags n = [])).
Proof.
  intros res. unfold res, onAddNote.
  destruct comment_dialog as [ok entered]. simpl.
  destruct (get_text_from_user isspace ok entered) as [value|] eqn:Hget.
  - apply get_text_from_user_strip in Hget as (-> & Hval & Hne).
    assert (Hblank : all_space isspace entered ≠ true).
    { intros Hs. apply strip_empty in Hs. congruence. }
    assert (Htruthy : truthy (Some value) = true) by by destruct value.
    rewrite Htruthy. simpl. unfold NoteTaker.create.
    rewrite decide_False by done.
    assert (Hk : st !! fresh (dom st) = None) by apply not_elem_of_dom, is_fresh.
    destruct _with_tags.
    + destruct (truthy (get_text_from_user isspace tags_dialog.1 tags_dialog.2)).
      * simpl. split_and!; try done; [split; [done | by intros [|]]|].
        intros _. unfold NoteTaker.append_tags. rewrite lookup_insert_eq.
        rewrite insert_insert_eq. eexists. split; [reflexivity|]. simpl.
        split_and!; try done.
        apply tags_to_append_clean.
      * simpl. split_and!; try done; [split; [done | by intros [|]]|].
        intros _. eexists. split; [reflexivity|]. simpl. by split_and!.
    + simpl. split_and!; try done; [split; [done | by intros [|]]|].
      intros _. eexists. split; [reflexivity|]. simpl. by split_and!.
  - simpl.
    assert (Hwhy : ok = false ∨ all_space isspace entered = true).
    { unfold get_text_from_user in Hget. destruct ok; [|by left].
      destruct (decide (strip isspace entered = "")) as [He|]; [|done].
      right. by apply strip_empty. }
    split_and!; try done.
Qed.

Example comment_with_tags :
  onAddNote ascii_isspace rd0 true 42 (true, " see chapter 3 ") (true, "todo  later") ∅
  = (CommentAdded,
     {[ 1%positive :=
          {| NoteTaker.book_id := 1; NoteTaker.page_number := 0;
             NoteTaker.title := ""; NoteTaker.content := "see chapter 3";
             NoteTaker.position := 42; NoteTaker.tags := ["todo"; "later"] |} ]}).
Proof. vm_compute. reflexivity. Qed.

(** ** A named bookmark, from the dialog on *)

(** X16: "Add Named Bookmark" never ends in a removal without a new
    bookmark.  When the dialog is not confirmed or holds only whitespace,
    nothing is announced and the table is unchanged; otherwise a bookmark
    named by the trimmed text is added at the caret, after the bookmarks of
    the caret's line were cleared. *)
Theorem named_bookmark_from_dialog (isspace : ascii → bool)
    (PositionToXY : Z → Z) rd name_dialog ip (st : Bookmarker.Store) :
  let res := onAddNamedBookmark_dialog isspace PositionToXY rd name_dialog ip st in
  let st1 := without_line PositionToXY rd (PositionToXY ip) st in
  res.1 ≠ Some BookmarkRemoved ∧
  (res.1 = None ↔
     name_dialog.1 = false ∨ all_space isspace name_dialog.2 = true) ∧
  (res.1 = None → res.2 = st) ∧
  (res.1 = Some BookmarkAdded →
     strip isspace name_dialog.2 ≠ "" ∧
     res.2 = <[ fresh (dom st1) :=
                  bookmark rd (strip isspace name_dialog.2) ip ]> st1).
Proof.
  intros res st1. unfold res, onAddNamedBookmark_dialog, onAddNamedBookmark.
  destruct name_dialog as [ok entered]. simpl.
  destruct (get_text_from_user isspace ok entered) as [value|] eqn:Hget.
  - apply get_text_from_user_strip in Hget as (-> & Hval & Hne).
    assert (Hblank : all_space isspace entered ≠ true).
    { intros Hs. apply strip_empty in Hs. congruence. }
    simpl. rewrite decide_False by done.
    rewrite add_bookmark_creates by (by left). simpl.
    split_and!; try done; [split; [done | by intros [|]]|].
    intros _. by rewrite <- Hval.
  - simpl.
    assert (Hwhy : ok = false ∨ all_space isspace entered = true).
    { unfold get_text_from_user in Hget. destruct ok; [|by left].
      destruct (decide (strip isspace entered = "")) as [He|]; [|done].
      right. by apply strip_empty. }
    split_and!; try done.
Qed.

(** ** The page range of a search *)

(** X17: the section list reports either [wx.NOT_FOUND] or the index of one
    of its items.  Then [get_range] fails exactly when "Specific section"
    is chosen and no section is selected, and fails for the unbound
    [from_page]; with a section selected it returns that section's first and
    last page, and in page mode the two spin values, each less one. *)
Theorem get_range_fails_without_section hasSection sectionChoice toc_tree
    fromPage toPage :
  sectionChoice = PageRangeControl.NOT_FOUND ∨
  0 <= sectionChoice < Z.of_nat (length toc_tree) →
  let res := PageRangeControl.get_range hasSection sectionChoice toc_tree
               fromPage toPage in
  ((∃ e, res = inl e) ↔
     hasSection = true ∧ sectionChoice = PageRangeControl.NOT_FOUND) ∧
  res ≠ inl PageRangeControl.IndexError ∧
  (hasSection = false → res = inr (fromPage - 1, toPage - 1)) ∧
  (hasSection = true → sectionChoice ≠ PageRangeControl.NOT_FOUND →
     ∃ sect, toc_tree !! Z.to_nat sectionChoice = Some sect ∧
       res = inr (PageRangeControl.first (PageRangeControl.pager sect),
                  PageRangeControl.last (PageRangeControl.pager sect))).
Proof.
  intros Hsel res. unfold res, PageRangeControl.get_range.
  destruct hasSection; simpl.
  - destruct (Z.eqb_spec sectionChoice PageRangeControl.NOT_FOUND) as [->|Hne];
      simpl.
    + split_and!; try done. split; [done | by exists PageRangeControl.UnboundLocalError].
    + destruct Hsel as [|[Hlo Hhi]]; [done|].
      unfold PageRangeControl.getitem.
      destruct (Z.leb_spec 0 sectionChoice); [|lia].
      destruct (Z.ltb_spec sectionChoice (Z.of_nat (length toc_tree))); [|lia].
      simpl.
      destruct (toc_tree !! Z.to_nat sectionChoice) as [sect|] eqn:Hsect.
      * split_and!; try done.
        -- split; [by intros [e ?] | by intros [_ ?]].
        -- intros _ _. by exists sect.
      * apply lookup_ge_None in Hsect. lia.
  - split_and!; try done. split; [by intros [e ?] | by intros [? _]].
Qed.

Lemma get_range_fails_without_section_witness :
  let res := PageRangeControl.get_range true PageRangeControl.NOT_FOUND
               [ {| PageRangeControl.title := "Preface";
                    PageRangeControl.pager :=
                      {| PageRangeControl.first := 0; PageRangeControl.last := 3 |} |} ]
               1 12 in
  ((∃ e, res = inl e) ↔
     true = true ∧ PageRangeControl.NOT_FOUND = PageRangeControl.NOT_FOUND) ∧
  res ≠ inl PageRangeControl.IndexError ∧
  (true = false → res = inr (1 - 1, 12 - 1)) ∧
  (true = true → PageRangeControl.NOT_FOUND ≠ PageRangeControl.NOT_FOUND →
     ∃ sect, [ {| PageRangeControl.title := "Preface";
                  PageRangeControl.pager :=
                    {| PageRangeControl.first := 0; PageRangeControl.last := 3 |} |} ]
               !! Z.to_nat PageRangeControl.NOT_FOUND = Some sect ∧
       res = inr (PageRangeControl.first (PageRangeControl.pager sect),
                  PageRangeControl.last (PageRangeControl.pager sect))).
Proof.
  apply (get_range_fails_without_section true PageRangeControl.NOT_FOUND).
  left. reflexivity.
Defined.

(** ** The paths [clean] goes on to remove *)

Section CleanProperties.

Variable glob : string → list string.

Lemma list_remove_first (x : string) (a l : list string) :
  x ∉ a → list_remove x (a ++ x :: l) = Some (a ++ l).
Proof.
  induction a as [|y a IH]; intros Hx; simpl.
  - by rewrite decide_True.
  - apply not_elem_of_cons in Hx as [Hxy Hx].
    rewrite decide_False by done. by rewrite IH.
Qed.

Lemma replace_patterns_spec (a b g : list string) :
  Forall (λ entry, has_star entry = false) a →
  replace_patterns
    ((λ entry, (entry, glob entry)) <$> filter (λ entry, has_star entry = true) b)
    (a ++ b ++ g)
  = Some (a ++ filter (λ entry, has_star entry ≠ true) b ++ g
            ++ mjoin (glob <$> filter (λ entry, has_star entry = true) b)).
Proof.
  revert a g. induction b as [|e b IH]; intros a g Ha; simpl.
  - by rewrite app_nil_r.
  - destruct (has_star e) eqn:He.
    + rewrite filter_cons_True by done.
      rewrite (filter_cons_False (λ entry, has_star entry ≠ true)) by (by intros []).
      rewrite fmap_cons. simpl.
      rewrite list_remove_first.
      * rewrite <- !app_assoc. rewrite (IH a (g ++ glob e) Ha).
        by rewrite <- !app_assoc.
      * intros Hin. apply (proj1 (Forall_forall _ _) Ha) in Hin. congruence.
    + rewrite filter_cons_False by (by rewrite He).
      rewrite (filter_cons_True (λ entry, has_star entry ≠ true)) by (by rewrite He).
      rewrite (cons_middle e a), app_assoc.
      rewrite (IH (a ++ [e]) g).
      * by rewrite <- !app_assoc.
      * apply Forall_app. split; [done|]. by repeat constructor.
Qed.

(** X18: the replacement of glob patterns in [clean] never fails on a
    missing list item.  The paths it leaves to be removed are the configured
    entries without a star, in their order, followed by what [glob] finds
    for each entry with a star, in the order of those entries. *)
Theorem folders_to_clean_expanded (everytime assets_folders : list string)
    (assets siteconfig : bool) :
  let entries :=
    everytime ++ (if assets then assets_folders else [])
              ++ (if siteconfig then [".appdata"] else []) in
  folders_to_clean glob everytime assets_folders assets siteconfig
  = Some (filter (λ entry, has_star entry ≠ true) entries
          ++ mjoin (glob <$> filter (λ entry, has_star entry = true) entries)).
Proof.
  intros entries. unfold folders_to_clean.
  assert (Hl2 : (let l1 := if assets then everytime ++ assets_folders else everytime in
                 if siteconfig then l1 ++ [".appdata"] else l1) = entries).
  { unfold entries. destruct assets, siteconfig; simpl;
      by rewrite ?app_nil_r, <- ?app_assoc. }
  simpl in Hl2. rewrite Hl2.
  pose proof (replace_patterns_spec [] entries [] (Forall_nil_2 _)) as Hspec.
  simpl in Hspec. rewrite !app_nil_r in Hspec. rewrite Hspec.
  done.
Qed.

End CleanProperties.

Example clean_with_a_pattern :
  folders_to_clean
    (λ entry, if decide (entry = "*.egg-info") then ["a.egg-info"; "b.egg-info"] else [])
    ["build"; "*.egg-info"; "dist"] ["scripts/builder/assets"] false true
  = Some ["build"; "dist"; ".appdata"; "a.egg-info"; "b.egg-info"].
Proof. vm_compute. reflexivity. Qed.

(** ** Removing a highlight and selecting it again *)

(** X19: on a page without overlaps, selecting exactly the range of a
    stored highlight removes it, and selecting the same range once more
    stores a new highlight with that range and the text selected then; the
    other rows are the same throughout. *)
Theorem remove_then_select_again rd text text' x y (st : Quoter.Store) i q :
  text ≠ "" → text' ≠ "" → x <= y →
  page_disjoint rd st →
  st !! i = Some q → Quoter.on_page rd q = true →
  Quoter.start_pos q = x → Quoter.end_pos q = y →
  let st1 : Quoter.Store := base.delete i st in
  onQuoteSelection rd text x y st = (Removed, st1) ∧
  onQuoteSelection rd text' x y st1 =
    (Created, <[ fresh (dom st1) := highlight rd text' x y ]> st1).
Proof.
  intros Ht Ht' Hxy Hd Hi Hpage Hs He st1.
  assert (Hfm : first_match (Quoter.get_for_page rd st) x y i q)
    by (apply inside_is_first_match; try done; lia).
  assert (Hv : verdict q x y = VRemove) by by apply verdict_VRemove.
  split.
  - apply (inj Some).
    rewrite (onQuoteSelection_first _ _ _ _ _ i q) by (done || congruence).
    simpl. by rewrite Hv.
  - unfold onQuoteSelection. rewrite decide_False by done.
    rewrite (proj2 (scan_quotes_None _ x y st1)).
    + unfold Quoter.create. by destruct (Z.leb_spec x y); [|lia].
    + apply no_overlap_no_verdict; [done|].
      intros j r [Hji Hj]%lookup_delete_Some Hpr.
      assert (Hij : i ≠ j) by done.
      pose proof (Hd i j q r Hij Hi Hj Hpage Hpr) as Hno.
      rewrite overlaps_sym. revert Hno.
      unfold overlaps, Quoter.range_of, candidate. simpl. by rewrite Hs, He.
Qed.

Lemma remove_then_select_again_witness :
  let st1 : Quoter.Store := base.delete 2%positive page_two_apart in
  onQuoteSelection rd0 "x" 10 20 page_two_apart = (Removed, st1) ∧
  onQuoteSelection rd0 "y" 10 20 st1 =
    (Created, <[ fresh (dom st1) := highlight rd0 "y" 10 20 ]> st1).
Proof.
  apply (remove_then_select_again rd0 "x" "y" 10 20 page_two_apart 2%positive
           (highlight rd0 "b" 10 20)).
  - discriminate.
  - discriminate.
  - lia.
  - rewrite page_two_apart_rows. intros i j q r Hij Hi Hj _ _.
    apply lookup_insert_Some in Hi as [[<- <-]|[? Hi]];
      [|apply lookup_singleton_Some in Hi as [<- <-]];
      (apply lookup_insert_Some in Hj as [[<- <-]|[? Hj]];
        [|apply lookup_singleton_Some in Hj as [<- <-]]);
      done.
  - vm_compute. reflexivity.
  - vm_compute. reflexivity.
  - reflexivity.
  - reflexivity.
Defined.
